(** * Enterprise Research Agent: the agent of [agent.py], embedded and verified

    Definitions come first, in the order of [agent.py]:
    - [Text]    the [str] operations the agent relies on ([strip], [replace],
                [find], [rfind], slices, [upper], and the ticker pattern of
                [re.search]);
    - [Dict], [Json], [PyView]
                dictionaries in insertion order, JSON values with
                [json.loads], and Python's views of them (truthiness, [len]);
    - [Agent]   the state of a [CompanyResearchAgent], the outside world
                (language model, search providers, market data) as oracles,
                and the methods of the class in a state-and-exception monad;
    - the vocabulary for reading a run, and the scenarios.
    The theorems follow: the primitives, the rules for runs, the methods one
    by one, and the properties of the agent.

    Text model.  A Python [str] is a [string]; every [ascii] stands for the
    character with that code point, so the model covers text over the code
    points below 256.  Text with other characters is outside the model. *)

From Stdlib Require Import List String Ascii Bool Arith ZArith Lia.
From Stdlib Require Import DecimalString.
Import ListNotations.
Local Set Warnings "-register-all,-abstract-large-number".
Local Open Scope string_scope.
Local Open Scope list_scope.
Local Open Scope nat_scope.

Infix "+++" := String.append (right associativity, at level 60).

(* ================================================================== *)
(** ** Text *)
(* ================================================================== *)

Module Text.

Definition code (c : ascii) : nat := nat_of_ascii c.

Definition in_range (lo hi : nat) (c : ascii) : bool :=
  (lo <=? code c) && (code c <=? hi).

(** [str.isspace] on one character (code points below 256). *)
Definition is_space (c : ascii) : bool :=
  in_range 9 13 c || in_range 28 32 c || (code c =? 133) || (code c =? 160).

Definition is_upper_AZ (c : ascii) : bool := in_range 65 90 c.
Definition is_digit (c : ascii) : bool := in_range 48 57 c.

(** The class [\w] of [re] on [str] patterns: alphanumeric or underscore. *)
Definition is_word (c : ascii) : bool :=
  is_digit c || is_upper_AZ c || (code c =? 95) || in_range 97 122 c
  || (code c =? 170) || (code c =? 178) || (code c =? 179) || (code c =? 181)
  || (code c =? 185) || (code c =? 186) || in_range 188 190 c
  || in_range 192 214 c || in_range 216 246 c || in_range 248 255 c.

Fixpoint lstrip (s : string) : string :=
  match s with
  | String c r => if is_space c then lstrip r else s
  | EmptyString => EmptyString
  end.

(** [rstrip] keeps a character when it is not a space or when something
    survives to its right. *)
Fixpoint rstrip (s : string) : string :=
  match s with
  | String c r =>
      match rstrip r with
      | EmptyString => if is_space c then EmptyString else String c EmptyString
      | r' => String c r'
      end
  | EmptyString => EmptyString
  end.

(** [s.strip()] *)
Definition strip (s : string) : string := rstrip (lstrip s).

Fixpoint take (n : nat) (s : string) : string :=
  match n, s with
  | S n', String c r => String c (take n' r)
  | _, _ => EmptyString
  end.

Fixpoint drop (n : nat) (s : string) : string :=
  match n, s with
  | S n', String _ r => drop n' r
  | _, _ => s
  end.

(** [s[a:b]] for indices inside [0 .. len(s)] (empty when [b <= a]). *)
Definition slice (a b : nat) (s : string) : string := take (b - a) (drop a s).

(** [s.find(sub)]: index of the first occurrence. *)
Fixpoint find (sub s : string) : option nat :=
  if prefix sub s then Some 0
  else match s with
       | String _ r => option_map S (find sub r)
       | EmptyString => None
       end.

(** [s.rfind(sub)]: index of the last occurrence. *)
Fixpoint rfind (sub s : string) : option nat :=
  match s with
  | String _ r =>
      match rfind sub r with
      | Some i => Some (S i)
      | None => if prefix sub s then Some 0 else None
      end
  | EmptyString => if prefix sub s then Some 0 else None
  end.

(** [sub in s] *)
Definition contains (sub s : string) : bool :=
  match find sub s with Some _ => true | None => false end.

(** [s.replace(old, new)] for a non-empty [old]: occurrences are replaced
    from the left and do not overlap. [skip] counts the characters of the
    occurrence just replaced that are still to be passed over. *)
Fixpoint replace_from (skip : nat) (old new s : string) : string :=
  match s with
  | EmptyString => EmptyString
  | String c r =>
      match skip with
      | S k => replace_from k old new r
      | O =>
          if prefix old s
          then new +++ replace_from (String.length old - 1) old new r
          else String c (replace_from 0 old new r)
      end
  end.

Definition replace (old new s : string) : string := replace_from 0 old new s.

(** [str(n)] for a count. *)
Definition str_of_nat (n : nat) : string := NilEmpty.string_of_uint (Nat.to_uint n).

(** [s.join(parts)] *)
Fixpoint join (sep : string) (parts : list string) : string :=
  match parts with
  | [] => EmptyString
  | [p] => p
  | p :: ps => p +++ sep +++ join sep ps
  end.

(** [c.upper()].  Two characters below 256 have their capital outside the
    range (U+00B5 and U+00FF); their capitals, like themselves, are word
    characters outside A-Z, which is all the ticker pattern looks at, so they
    are kept.  U+00DF becomes "SS". *)
Definition upper_char (c : ascii) : string :=
  if in_range 97 122 c then String (ascii_of_nat (code c - 32)) EmptyString
  else if code c =? 223 then "SS"
  else if in_range 224 254 c && negb (code c =? 247)
       then String (ascii_of_nat (code c - 32)) EmptyString
  else String c EmptyString.

(** [c.lower()] *)
Definition lower_char (c : ascii) : ascii :=
  if in_range 65 90 c then ascii_of_nat (code c + 32)
  else if in_range 192 222 c && negb (code c =? 215) then ascii_of_nat (code c + 32)
  else c.

(** [s.lower()] *)
Fixpoint lower (s : string) : string :=
  match s with
  | EmptyString => EmptyString
  | String c r => String (lower_char c) (lower r)
  end.

(** [s.upper()] *)
Fixpoint upper (s : string) : string :=
  match s with
  | EmptyString => EmptyString
  | String c r => upper_char c +++ upper r
  end.

(** *** The ticker pattern [\b[A-Z]{1,5}\b] *)

(** [\b] between the character before the position ([None] at the start)
    and the text from the position on. *)
Definition boundary (prev : option ascii) (s : string) : bool :=
  let before := match prev with Some c => is_word c | None => false end in
  let after := match s with String c _ => is_word c | EmptyString => false end in
  xorb before after.

Fixpoint all_upper (s : string) : bool :=
  match s with
  | EmptyString => true
  | String c r => is_upper_AZ c && all_upper r
  end.

Definition last_char (s : string) : option ascii :=
  get (String.length s - 1) s.

(** The attempt of [[A-Z]{k}\b] on [s]. *)
Definition letters_then_boundary (k : nat) (s : string) : option string :=
  let m := take k s in
  if (String.length m =? k) && all_upper m && boundary (last_char m) (drop k s)
  then Some m else None.

(** [[A-Z]{1,5}\b], greedy: the longest run is tried first, then the regex
    engine backs off one letter at a time. *)
Fixpoint greedy_letters (k : nat) (s : string) : option string :=
  match k with
  | O => None
  | S k' =>
      match letters_then_boundary k s with
      | Some m => Some m
      | None => greedy_letters k' s
      end
  end.

Definition match_here (prev : option ascii) (s : string) : option string :=
  if boundary prev s then greedy_letters 5 s else None.

(** [re.search(r"\b[A-Z]{1,5}\b", s)]: the leftmost match, as [group(0)]. *)
Fixpoint search_from (prev : option ascii) (s : string) : option string :=
  match match_here prev s with
  | Some m => Some m
  | None =>
      match s with
      | String c r => search_from (Some c) r
      | EmptyString => None
      end
  end.

Definition search_ticker (s : string) : option string := search_from None s.

End Text.

(* ================================================================== *)
(** ** JSON values and [json.loads] *)
(* ================================================================== *)

(** A Python [dict] with text keys: the pairs in insertion order, every key
    once. *)
Definition dict (V : Type) : Type := list (string * V).

Module Dict.
Section Ops.
Context {V : Type}.

(** [d.get(k)] *)
Fixpoint get (k : string) (d : dict V) : option V :=
  match d with
  | [] => None
  | (k', v) :: r => if String.eqb k k' then Some v else get k r
  end.

(** [d[k] = v]: an existing key keeps its place, a new one goes last. *)
Fixpoint set (k : string) (v : V) (d : dict V) : dict V :=
  match d with
  | [] => [(k, v)]
  | (k', v') :: r =>
      if String.eqb k k' then (k', v) :: r else (k', v') :: set k v r
  end.

(** [k in d] *)
Definition mem (k : string) (d : dict V) : bool :=
  match get k d with Some _ => true | None => false end.

(** [not d] *)
Definition is_empty (d : dict V) : bool :=
  match d with [] => true | _ :: _ => false end.

(** [list(d.keys())] *)
Definition keys (d : dict V) : list string := map fst d.

(** [list(d.keys())[-1]] *)
Definition last_key (d : dict V) : option string :=
  last (map Some (keys d)) None.

(** [dict(pairs)] *)
Definition of_pairs (ps : list (string * V)) : dict V :=
  fold_left (fun d kv => set (fst kv) (snd kv) d) ps [].

End Ops.
End Dict.

Module Json.

(** What [json.loads] produces.  A number keeps its lexeme: its value as an
    [int] or a [float] is not needed beyond being zero or not. *)
Inductive json : Type :=
| JNull
| JBool (b : bool)
| JNum (lexeme : string)
| JStr (s : string)
| JArr (items : list json)
| JObj (fields : dict json).

Definition is_ws (c : ascii) : bool :=
  let n := Text.code c in (n =? 32) || (n =? 9) || (n =? 10) || (n =? 13).

Fixpoint skip_ws (s : string) : string :=
  match s with
  | String c r => if is_ws c then skip_ws r else s
  | EmptyString => s
  end.

Definition hex_val (c : ascii) : option nat :=
  let n := Text.code c in
  if Text.is_digit c then Some (n - 48)
  else if Text.in_range 65 70 c then Some (n - 55)
  else if Text.in_range 97 102 c then Some (n - 87)
  else None.

Definition hex4 (a b c d : ascii) : option nat :=
  match hex_val a, hex_val b, hex_val c, hex_val d with
  | Some x, Some y, Some z, Some w => Some (((x * 16 + y) * 16 + z) * 16 + w)
  | _, _, _, _ => None
  end.

(** The character a one-letter escape stands for. *)
Definition escape_char (e : ascii) : option ascii :=
  let n := Text.code e in
  if (n =? 34) || (n =? 92) || (n =? 47) then Some e
  else if n =? 98 then Some (ascii_of_nat 8)
  else if n =? 102 then Some (ascii_of_nat 12)
  else if n =? 110 then Some (ascii_of_nat 10)
  else if n =? 114 then Some (ascii_of_nat 13)
  else if n =? 116 then Some (ascii_of_nat 9)
  else None.

Definition push (c : ascii) (r : option (string * string)) : option (string * string) :=
  match r with
  | Some (body, rest) => Some (String c body, rest)
  | None => None
  end.

(** The body of a string literal, from after the opening quote: the decoded
    text and what follows the closing quote.  Raw control characters are
    refused (the decoder is strict).  An escape of four hex digits for a code point
    from 256 on denotes a character outside the text model and is refused
    here. *)
Fixpoint scan_string (s : string) : option (string * string) :=
  match s with
  | EmptyString => None
  | String c r =>
      if Text.code c =? 34 then Some (EmptyString, r)
      else if Text.code c =? 92 then
        match r with
        | String e r1 =>
            if Text.code e =? 117 then
              match r1 with
              | String h1 (String h2 (String h3 (String h4 r2))) =>
                  match hex4 h1 h2 h3 h4 with
                  | Some n => if n <? 256 then push (ascii_of_nat n) (scan_string r2)
                              else None
                  | None => None
                  end
              | _ => None
              end
            else
              match escape_char e with
              | Some c' => push c' (scan_string r1)
              | None => None
              end
        | EmptyString => None
        end
      else if Text.code c <? 32 then None
      else push c (scan_string r)
  end.

Fixpoint span_digits (s : string) : string * string :=
  match s with
  | String c r =>
      if Text.is_digit c then let (ds, rest) := span_digits r in (String c ds, rest)
      else (EmptyString, s)
  | EmptyString => (EmptyString, s)
  end.

(** The integer part, after the sign: a lone 0, or a digit from 1 to 9
    followed by digits. *)
Definition scan_int (s : string) : option (string * string) :=
  match s with
  | String c r =>
      if Text.code c =? 48 then Some (String c EmptyString, r)
      else if Text.in_range 49 57 c then Some (span_digits s)
      else None
  | EmptyString => None
  end.

(** The optional fraction: taken only with a digit after the point. *)
Definition scan_frac (s : string) : string * string :=
  match s with
  | String c r =>
      if Text.code c =? 46 then
        match span_digits r with
        | (EmptyString, _) => (EmptyString, s)
        | (ds, rest) => (String c ds, rest)
        end
      else (EmptyString, s)
  | EmptyString => (EmptyString, s)
  end.

(** The optional exponent: e or E, an optional sign, at least one digit. *)
Definition scan_exp (s : string) : string * string :=
  match s with
  | String e r =>
      if (Text.code e =? 101) || (Text.code e =? 69) then
        let (sign, r1) :=
          match r with
          | String g r' =>
              if (Text.code g =? 43) || (Text.code g =? 45)
              then (String g EmptyString, r') else (EmptyString, r)
          | EmptyString => (EmptyString, r)
          end in
        match span_digits r1 with
        | (EmptyString, _) => (EmptyString, s)
        | (ds, rest) => (String e (sign +++ ds), rest)
        end
      else (EmptyString, s)
  | EmptyString => (EmptyString, s)
  end.

Definition scan_number (s : string) : option (string * string) :=
  let (sign, s1) :=
    match s with
    | String c r => if Text.code c =? 45 then (String c EmptyString, r) else (EmptyString, s)
    | EmptyString => (EmptyString, s)
    end in
  match scan_int s1 with
  | Some (i, r1) =>
      let (f, r2) := scan_frac r1 in
      let (e, r3) := scan_exp r2 in
      Some (sign +++ i +++ f +++ e, r3)
  | None => None
  end.

(** A fixed word at the head of the text. *)
Definition literal (w : string) (v : json) (s : string) : option (json * string) :=
  if prefix w s then Some (v, Text.drop (String.length w) s) else None.

(** The scanner.  [parse_value] reads one value at the head of the text;
    [parse_elements] reads the rest of an array from its next element on;
    [parse_members] reads the rest of an object from the quote of its next
    key on.  [n] bounds the nesting of calls: every second call has consumed
    a character. *)
Fixpoint parse_value (n : nat) (s : string) {struct n} : option (json * string) :=
  match n with
  | O => None
  | S n' =>
      match s with
      | EmptyString => None
      | String c r =>
          let k := Text.code c in
          if k =? 34 then
            match scan_string r with
            | Some (body, rest) => Some (JStr body, rest)
            | None => None
            end
          else if k =? 123 then
            match skip_ws r with
            | String c1 r1 =>
                if Text.code c1 =? 125 then Some (JObj [], r1)
                else if Text.code c1 =? 34 then parse_members n' (String c1 r1) []
                else None
            | EmptyString => None
            end
          else if k =? 91 then
            match skip_ws r with
            | String c1 r1 =>
                if Text.code c1 =? 93 then Some (JArr [], r1)
                else parse_elements n' (String c1 r1) []
            | EmptyString => None
            end
          else if k =? 110 then literal "null" JNull s
          else if k =? 116 then literal "true" (JBool true) s
          else if k =? 102 then literal "false" (JBool false) s
          else if k =? 78 then literal "NaN" (JNum "NaN") s
          else if k =? 73 then literal "Infinity" (JNum "Infinity") s
          else if (k =? 45) && prefix "-Infinity" s
               then literal "-Infinity" (JNum "-Infinity") s
          else
            match scan_number s with
            | Some (lexeme, rest) => Some (JNum lexeme, rest)
            | None => None
            end
      end
  end

with parse_elements (n : nat) (s : string) (acc : list json) {struct n}
  : option (json * string) :=
  match n with
  | O => None
  | S n' =>
      match parse_value n' s with
      | Some (v, r) =>
          match skip_ws r with
          | String c r1 =>
              if Text.code c =? 44 then parse_elements n' (skip_ws r1) (v :: acc)
              else if Text.code c =? 93 then Some (JArr (rev (v :: acc)), r1)
              else None
          | EmptyString => None
          end
      | None => None
      end
  end

with parse_members (n : nat) (s : string) (acc : list (string * json)) {struct n}
  : option (json * string) :=
  match n with
  | O => None
  | S n' =>
      match s with
      | String q r =>
          if Text.code q =? 34 then
            match scan_string r with
            | Some (key, r1) =>
                match skip_ws r1 with
                | String c r2 =>
                    if Text.code c =? 58 then
                      match parse_value n' (skip_ws r2) with
                      | Some (v, r3) =>
                          match skip_ws r3 with
                          | String d r4 =>
                              if Text.code d =? 44
                              then parse_members n' (skip_ws r4) ((key, v) :: acc)
                              else if Text.code d =? 125
                              then Some (JObj (Dict.of_pairs (rev ((key, v) :: acc))), r4)
                              else None
                          | EmptyString => None
                          end
                      | None => None
                      end
                    else None
                | EmptyString => None
                end
            | None => None
            end
          else None
      | EmptyString => None
      end
  end.

(** [json.loads(s)]: [None] stands for [JSONDecodeError]. *)
Definition loads (s : string) : option json :=
  match parse_value (2 + 2 * String.length s) (skip_ws s) with
  | Some (v, rest) =>
      match skip_ws rest with
      | EmptyString => Some v
      | String _ _ => None
      end
  | None => None
  end.

End Json.
Import Json.

Module PyView.

(** The lexeme of a number denotes zero: no digit other than 0 before the
    exponent.  (A literal so small that the [float] conversion rounds it to
    zero is not told apart from a non-zero one.) *)
Fixpoint mantissa_zero (s : string) : bool :=
  match s with
  | EmptyString => true
  | String c r =>
      if (Text.code c =? 101) || (Text.code c =? 69) then true
      else if Text.in_range 49 57 c then false
      else mantissa_zero r
  end.

Definition num_is_zero (lexeme : string) : bool :=
  negb (prefix "N" lexeme || prefix "I" lexeme || prefix "-I" lexeme)
  && mantissa_zero lexeme.

(** [bool(v)] *)
Definition truthy (v : json) : bool :=
  match v with
  | JNull => false
  | JBool b => b
  | JNum lexeme => negb (num_is_zero lexeme)
  | JStr s => negb (String.eqb s EmptyString)
  | JArr l => match l with [] => false | _ :: _ => true end
  | JObj d => match d with [] => false | _ :: _ => true end
  end.

(** The characters of a text, each as a text of its own. *)
Fixpoint chars (s : string) : list string :=
  match s with
  | EmptyString => []
  | String c r => String c EmptyString :: chars r
  end.

(** [len(v)]; [None] where Python raises [TypeError]. *)
Definition py_len (v : json) : option nat :=
  match v with
  | JStr s => Some (String.length s)
  | JArr l => Some (List.length l)
  | JObj d => Some (List.length d)
  | JNull | JBool _ | JNum _ => None
  end.

(** [v == s] for a text [s]. *)
Definition eq_str (v : json) (s : string) : bool :=
  match v with
  | JStr t => String.eqb t s
  | _ => false
  end.

End PyView.

(* ================================================================== *)
(** ** The agent *)
(* ================================================================== *)

Module Agent.
Import PyView.

(** *** Data *)

(** One entry of [self.tool_calls]. *)
Record ToolCall : Type := mkToolCall {
  tool : string;
  input : string;
  output : string;
  timestamp : Z
}.

(** One entry of [self.chat_history]. *)
Record ChatMessage : Type := mkChat { role : string; text : string }.

(** The prompts are f-strings around the data below.  A prompt is kept as
    that data; how the template renders it (including the cut of the
    serialised search results at 3000 characters) is left to the language
    model oracle. *)
Inductive Prompt : Type :=
| IntentPrompt (user_text : string)
| ReportPrompt (company_name : string) (search_data : list (dict json))
               (fin_data : dict json)
| ExtractPrompt (report_text : string) (company_name : string)
| FollowupPrompt (context_text question : string)
| ComparePrompt (data_points : dict json)
| RewritePrompt (section : string) (plan_json : json).

(** The messages handed to [status_callback]. *)
Inductive Status : Type :=
| DetectingIntent
| Searching (company_name : string)
| AnalyzingMarkets
| WritingReport
| ExtractingData
| Comparing (companies : string).

(** What the run did to the outside world, newest first.  [EvResearch]
    marks an entry into [perform_deep_research]. *)
Inductive Event : Type :=
| EvHttpGet (url query : string) (num : nat)
| EvDdgs (query : string) (max_results : nat)
| EvYf (ticker : string)
| EvLlm (p : Prompt) (max_tokens : nat) (out : string)
| EvStatus (m : Status)
| EvResearch (company_name : string).

(** The instance fields of [CompanyResearchAgent], with the clock of the
    outside world ([tick]: how many times an oracle was consulted) and the
    trace of the run. *)
Record World : Type := mkWorld {
  google_api_key : option string;
  cse_id : option string;
  company_memory : dict (dict json);
  tool_calls : list ToolCall;
  chat_history : list ChatMessage;
  tick : nat;
  trace : list Event
}.

Definition with_memory (m : dict (dict json)) (w : World) : World :=
  mkWorld (google_api_key w) (cse_id w) m (tool_calls w) (chat_history w)
          (tick w) (trace w).
Definition with_tool_calls (l : list ToolCall) (w : World) : World :=
  mkWorld (google_api_key w) (cse_id w) (company_memory w) l (chat_history w)
          (tick w) (trace w).
Definition with_chat (l : list ChatMessage) (w : World) : World :=
  mkWorld (google_api_key w) (cse_id w) (company_memory w) (tool_calls w) l
          (tick w) (trace w).
Definition with_tick (n : nat) (w : World) : World :=
  mkWorld (google_api_key w) (cse_id w) (company_memory w) (tool_calls w)
          (chat_history w) n (trace w).
Definition with_trace (t : list Event) (w : World) : World :=
  mkWorld (google_api_key w) (cse_id w) (company_memory w) (tool_calls w)
          (chat_history w) (tick w) t.

(** *** The outside world *)

Record Response : Type := mkResponse {
  status_code : nat;
  json_body : option json        (* [res.json()]; [None] when it raises *)
}.

Inductive HttpOutcome : Type :=
| HttpRaises (msg : string)
| HttpReturns (res : Response).

Inductive DdgsOutcome : Type :=
| DdgsRaises (msg : string)
| DdgsReturns (hits : list (dict string)).

(** [resp.text] of a model response: missing, a value, or a property that
    raises. *)
Inductive TextAttr : Type :=
| NoTextAttr
| TextIs (s : string)
| TextRaises (msg : string).

Record GenResponse : Type := mkGen {
  resp_text : TextAttr;
  resp_candidates : option (list (list string))  (* the part texts of each candidate *)
}.

Inductive GenOutcome : Type :=
| GenRaises (msg : string)
| GenReturns (resp : GenResponse).

Record FastInfo : Type := mkFast {
  last_price : json;
  market_cap : json;
  currency : json
}.

Record TickerData : Type := mkTicker {
  fast_info : option FastInfo;    (* [None]: no such attribute *)
  info : dict json
}.

Inductive YfOutcome : Type :=
| YfRaises (msg : string)
| YfReturns (tk : TickerData).

(** The collaborators, each asked at a time [tick]. *)
Record Env : Type := mkEnv {
  ddgs_imported : bool;           (* the import of [DDGS] succeeded *)
  http_get : nat -> string -> string -> string -> string -> nat -> HttpOutcome;
  ddgs_text : nat -> string -> nat -> DdgsOutcome;
  generate_content : nat -> Prompt -> nat -> GenOutcome;
  yf_ticker : nat -> string -> YfOutcome;
  time_time : nat -> Z
}.

(** *** Exceptions and the monad *)

Inductive exn : Type :=
| InvalidSchema (url : string)
| ProviderError (msg : string)   (* raised inside requests, DDGS, yfinance or genai *)
| JSONDecodeError
| AttributeError (msg : string)
| TypeError (msg : string)
| KeyError (key : string).

(** [str(e)] *)
Definition exn_str (e : exn) : string :=
  match e with
  | InvalidSchema url => "No connection adapters were found for '" +++ url +++ "'"
  | ProviderError msg => msg
  | JSONDecodeError => "Expecting value"
  | AttributeError msg => msg
  | TypeError msg => msg
  | KeyError key => "'" +++ key +++ "'"
  end.

Inductive res (A : Type) : Type :=
| Ok (a : A)
| Raise (e : exn).
Arguments Ok {A} a.
Arguments Raise {A} e.

Definition M (A : Type) : Type := World -> res A * World.

Definition ret {A} (a : A) : M A := fun w => (Ok a, w).
Definition raise {A} (e : exn) : M A := fun w => (Raise e, w).
Definition bind {A B} (m : M A) (k : A -> M B) : M B :=
  fun w => match m w with
           | (Ok a, w') => k a w'
           | (Raise e, w') => (Raise e, w')
           end.
(** [try: m except Exception as e: h e] *)
Definition try_catch {A} (m : M A) (h : exn -> M A) : M A :=
  fun w => match m w with
           | (Ok a, w') => (Ok a, w')
           | (Raise e, w') => h e w'
           end.
Definition lift {A} (r : res A) : M A := fun w => (r, w).
Definition get_world : M World := fun w => (Ok w, w).
Definition modify (f : World -> World) : M unit := fun w => (Ok tt, f w).

Notation "x <- m ;; k" := (bind m (fun x => k))
  (at level 61, m at next level, right associativity).
Notation "m ;;; k" := (bind m (fun _ => k))
  (at level 61, right associativity).

Definition emit (ev : Event) : M unit :=
  modify (fun w => with_trace (ev :: trace w) w).
Definition next_tick : M nat :=
  fun w => (Ok (tick w), with_tick (S (tick w)) w).

Fixpoint mapM {A B} (f : A -> res B) (l : list A) : res (list B) :=
  match l with
  | [] => Ok []
  | a :: r =>
      match f a with
      | Ok b => match mapM f r with Ok bs => Ok (b :: bs) | Raise e => Raise e end
      | Raise e => Raise e
      end
  end.

Section WithEnv.
Variable env : Env.

(** *** Calls that leave the process *)

(** The URL literal of [search_web], as it stands in the source. *)
Definition CSE_URL : string :=
  "[https://www.googleapis.com/customsearch/v1](https://www.googleapis.com/customsearch/v1)".

(** The adapters a [requests] session mounts. *)
Definition has_adapter (url : string) : bool :=
  prefix "https://" (Text.lower url) || prefix "http://" (Text.lower url).

(** [requests.get(url, params={key, cx, q, num}, timeout=5)].  The session
    picks the connection adapter mounted for the prefix of the URL and raises
    [InvalidSchema] when there is none; only with an adapter is a request
    sent. *)
Definition requests_get (url key cx q : string) (num : nat) : M Response :=
  if has_adapter url then
    t <- next_tick ;;
    emit (EvHttpGet url q num) ;;;
    match http_get env t url key cx q num with
    | HttpRaises msg => raise (ProviderError msg)
    | HttpReturns r => ret r
    end
  else raise (InvalidSchema url).

(** [list(ddgs.text(query, max_results=top_k))] inside [with DDGS() as ddgs] *)
Definition ddgs_search (q : string) (k : nat) : M (list (dict string)) :=
  t <- next_tick ;;
  emit (EvDdgs q k) ;;;
  match ddgs_text env t q k with
  | DdgsRaises msg => raise (ProviderError msg)
  | DdgsReturns hits => ret hits
  end.

(** [yf.Ticker(ticker)] and the reads of its attributes. *)
Definition yf_lookup (ticker : string) : M TickerData :=
  t <- next_tick ;;
  emit (EvYf ticker) ;;;
  match yf_ticker env t ticker with
  | YfRaises msg => raise (ProviderError msg)
  | YfReturns tk => ret tk
  end.

(** [model_instance.generate_content(prompt, generation_config=...)] *)
Definition model_generate (p : Prompt) (max_tokens : nat) : M GenResponse :=
  t <- next_tick ;;
  match generate_content env t p max_tokens with
  | GenRaises msg => raise (ProviderError msg)
  | GenReturns r => ret r
  end.

(** *** Helper functions *)

(** [safe_generate_text(model_instance, prompt, max_tokens)] *)
Definition safe_generate_text (p : Prompt) (max_tokens : nat) : M string :=
  out <- try_catch
           (resp <- model_generate p max_tokens ;;
            has_text <- match resp_text resp with
                        | NoTextAttr => ret None
                        | TextIs s => ret (if truthy (JStr s) then Some s else None)
                        | TextRaises msg => raise (ProviderError msg)
                        end ;;
            match has_text with
            | Some s => ret (Text.strip s)
            | None =>
                match resp_candidates resp with
                | Some (parts :: _) => ret (Text.strip (String.concat EmptyString parts))
                | Some [] | None => ret EmptyString
                end
            end)
           (fun exc => ret ("Error generating content: " +++ exn_str exc)) ;;
  emit (EvLlm p max_tokens out) ;;;
  ret out.

(** [clean_json_string(json_str)] *)
Definition clean_json_string (json_str : string) : string :=
  let json_str :=
    if Text.contains "```json" json_str
    then Text.replace "```" EmptyString (Text.replace "```json" EmptyString json_str)
    else if Text.contains "```" json_str
    then Text.replace "```" EmptyString json_str
    else json_str in
  Text.strip json_str.

(** [self._log_tool(tool, inp, out)] *)
Definition log_tool (tool inp out : string) : M unit :=
  t <- next_tick ;;
  modify (fun w =>
    with_tool_calls
      (tool_calls w ++ [mkToolCall tool (Text.take 300 inp) (Text.take 300 out)
                                   (time_time env t)]) w).

(** [if status_callback: status_callback(m)].  [cb] tells whether a
    callback was passed; a callback only takes note of the message. *)
Definition notify (cb : bool) (m : Status) : M unit :=
  if cb then emit (EvStatus m) else ret tt.

(** [d.get(k, default)] *)
Definition get_or {V} (k : string) (default : V) (d : dict V) : V :=
  match Dict.get k d with Some v => v | None => default end.

(** *** Search layer *)

(** [for i in v]: the elements a JSON value yields when iterated. *)
Definition iterate (v : json) : res (list json) :=
  match v with
  | JArr l => Ok l
  | JStr s => Ok (map JStr (chars s))
  | JObj d => Ok (map JStr (Dict.keys d))
  | JNull | JBool _ | JNum _ => Raise (TypeError "object is not iterable")
  end.

(** [{"title": i.get("title"), "link": i.get("link"), "snippet": i.get("snippet")}] *)
Definition google_item (i : json) : res (dict json) :=
  match i with
  | JObj d => Ok [("title", get_or "title" JNull d);
                  ("link", get_or "link" JNull d);
                  ("snippet", get_or "snippet" JNull d)]
  | _ => Raise (AttributeError "object has no attribute 'get'")
  end.

(** The comprehension over [data.get("items", [])]. *)
Definition google_results (data : json) : res (list (dict json)) :=
  match data with
  | JObj d =>
      match iterate (get_or "items" (JArr []) d) with
      | Ok items => mapM google_item items
      | Raise e => Raise e
      end
  | _ => Raise (AttributeError "object has no attribute 'get'")
  end.

(** [{"title": r['title'], "link": r['href'], "snippet": r['body']}] *)
Definition ddgs_item (r : dict string) : res (dict json) :=
  match Dict.get "title" r with
  | None => Raise (KeyError "title")
  | Some t =>
      match Dict.get "href" r with
      | None => Raise (KeyError "href")
      | Some h =>
          match Dict.get "body" r with
          | None => Raise (KeyError "body")
          | Some b => Ok [("title", JStr t); ("link", JStr h); ("snippet", JStr b)]
          end
      end
  end.

(** Truthiness of an optional credential. *)
Definition configured (o : option string) : bool :=
  match o with
  | Some s => truthy (JStr s)
  | None => false
  end.

Definition credential (o : option string) : string :=
  match o with Some s => s | None => EmptyString end.

(** The [try] block of part A from the response on: [Some results] when it
    returns them, [None] when the status is not 200. *)
Definition on_response (query : string) (res : Response)
  : M (option (list (dict json))) :=
  if status_code res =? 200 then
    data <- match json_body res with
            | Some data => ret data
            | None => raise JSONDecodeError
            end ;;
    results <- lift (google_results data) ;;
    log_tool "Google Search" query
             ("Found " +++ Text.str_of_nat (List.length results)) ;;;
    ret (Some results)
  else ret None.

(** Part A of [search_web]: [Some results] when the branch returns,
    [None] when control falls through to part B. *)
Definition google_cse (query : string) (top_k : nat) : M (option (list (dict json))) :=
  w <- get_world ;;
  if configured (google_api_key w) && configured (cse_id w) then
    try_catch
      (res <- requests_get CSE_URL (credential (google_api_key w))
                           (credential (cse_id w)) query top_k ;;
       on_response query res)
      (fun e => ret None)
  else ret None.

(** Part B of [search_web]. *)
Definition duckduckgo (query : string) (top_k : nat) : M (list (dict json)) :=
  if ddgs_imported env then
    try_catch
      (raw_res <- ddgs_search query top_k ;;
       results <- lift (mapM ddgs_item raw_res) ;;
       log_tool "DuckDuckGo" query
                ("Found " +++ Text.str_of_nat (List.length results)) ;;;
       ret results)
      (fun e => log_tool "Search Error" query (exn_str e) ;;; ret [])
  else ret [].

(** [self.search_web(query, top_k)] *)
Definition search_web (query : string) (top_k : nat) : M (list (dict json)) :=
  primary <- google_cse query top_k ;;
  match primary with
  | Some results => ret results
  | None => duckduckgo query top_k
  end.

(** *** Financial layer *)

(** [v[:500]] *)
Definition slice500 (v : json) : res json :=
  match v with
  | JStr s => Ok (JStr (Text.take 500 s))
  | JArr l => Ok (JArr (firstn 500 l))
  | _ => Raise (TypeError "object is not subscriptable")
  end.

(** The ticker of [fetch_financials]: from the company text, else from the
    title of the first hit of a one-result search, put in capitals. *)
Definition detect_ticker (company : string) : M (option string) :=
  match Text.search_ticker company with
  | Some ticker => ret (Some ticker)
  | None =>
      hits <- search_web (company +++ " stock ticker symbol") 1 ;;
      match hits with
      | h :: _ =>
          match get_or "title" (JStr EmptyString) h with
          | JStr title => ret (Text.search_ticker (Text.upper title))
          | _ => raise (AttributeError "object has no attribute 'upper'")
          end
      | [] => ret None
      end
  end.

(** The [try] block of [fetch_financials], once a ticker is known. *)
Definition yfinance_snapshot (ticker : string) : M (dict json) :=
  try_catch
    (tk <- yf_lookup ticker ;;
     data <- match fast_info tk with
             | Some fi =>
                 if truthy (last_price fi)
                 then ret (Some [("symbol", JStr ticker);
                                 ("market_cap", market_cap fi);
                                 ("price", last_price fi);
                                 ("currency", currency fi);
                                 ("source", JStr "yfinance fast_info")])
                 else ret None
             | None => ret None
             end ;;
     match data with
     | Some d => log_tool "YFinance" ticker "Success" ;;; ret d
     | None =>
         if truthy (JObj (info tk)) && Dict.mem "regularMarketPrice" (info tk) then
           summary <- lift (slice500 (get_or "longBusinessSummary"
                                             (JStr EmptyString) (info tk))) ;;
           log_tool "YFinance" ticker "Success" ;;;
           ret [("symbol", JStr ticker);
                ("market_cap", get_or "marketCap" JNull (info tk));
                ("sector", get_or "sector" JNull (info tk));
                ("summary", summary)]
         else ret [("error", JStr "No financial data available")]
     end)
    (fun e => ret [("error", JStr (exn_str e))]).

(** [self.fetch_financials(company)] *)
Definition fetch_financials (company : string) : M (dict json) :=
  ticker <- detect_ticker company ;;
  match ticker with
  | None => ret [("error", JStr "Could not detect ticker.")]
  | Some ticker => yfinance_snapshot ticker
  end.

(** *** Intent layer *)

Definition default_intent : json :=
  JObj [("intent", JStr "research"); ("companies", JArr [])].

(** [self.classify_intent(user_text)] *)
Definition classify_intent (user_text : string) : M json :=
  try_catch
    (res <- safe_generate_text (IntentPrompt user_text) 200 ;;
     let res := clean_json_string res in
     match Text.find "{" res with
     | Some start =>
         let stop := match Text.rfind "}" res with
                     | Some i => i + 1
                     | None => 0
                     end in
         match loads (Text.slice start stop res) with
         | Some v => ret v
         | None => raise JSONDecodeError
         end
     | None => ret default_intent
     end)
    (fun _ => ret default_intent).

(** *** Main logic *)

(** The plan stored for a company after research. *)
Definition fresh_plan (report_text : string) (json_data : json) : dict json :=
  [("text", JStr report_text);
   ("original_text", JStr report_text);
   ("json", json_data)].

Definition parse_failure (json_str : string) : json :=
  JObj [("error", JStr "Failed to parse JSON"); ("raw", JStr json_str)].

(** [self.perform_deep_research(company_name, status_callback)] *)
Definition perform_deep_research (company_name : string) (cb : bool) : M string :=
  emit (EvResearch company_name) ;;;
  notify cb (Searching company_name) ;;;
  search_data <- search_web (company_name +++ " strategic analysis news") 5 ;;
  notify cb AnalyzingMarkets ;;;
  fin_data <- fetch_financials company_name ;;
  notify cb WritingReport ;;;
  report_text <- safe_generate_text
                   (ReportPrompt company_name search_data fin_data) 8000 ;;
  notify cb ExtractingData ;;;
  json_str <- safe_generate_text
                (ExtractPrompt (Text.take 20000 report_text) company_name) 4000 ;;
  let json_str := clean_json_string json_str in
  let json_data := match loads json_str with
                   | Some v => v
                   | None => parse_failure json_str
                   end in
  modify (fun w =>
    with_memory (Dict.set company_name (fresh_plan report_text json_data)
                          (company_memory w)) w) ;;;
  ret report_text.

(** [self.answer_followup(company, question)].  The [text] of a plan only
    ever holds text; the slice of anything else is not followed further. *)
Definition answer_followup (company question : string) : M string :=
  w <- get_world ;;
  let mem := get_or company [] (company_memory w) in
  match get_or "text" (JStr EmptyString) mem with
  | JStr t =>
      safe_generate_text (FollowupPrompt (Text.take 5000 t) question) 8192
  | _ => raise (TypeError "context is not text")
  end.

(** The loop of [compare_companies]. *)
Fixpoint compare_loop (companies : list string) (data_points : dict json)
  : M (dict json) :=
  match companies with
  | [] => ret data_points
  | c :: rest =>
      w <- get_world ;;
      (if Dict.mem c (company_memory w) then ret tt
       else perform_deep_research c false ;;; ret tt) ;;;
      w' <- get_world ;;
      match Dict.get c (company_memory w') with
      | None => raise (KeyError c)
      | Some plan =>
          compare_loop rest (Dict.set c (get_or "json" JNull plan) data_points)
      end
  end.

(** [self.compare_companies(companies, status_callback)] *)
Definition compare_companies (companies : list string) (cb : bool) : M string :=
  notify cb (Comparing (Text.join ", " companies)) ;;;
  data_points <- compare_loop companies [] ;;
  safe_generate_text (ComparePrompt data_points) 8192.

(** [companies[0]] *)
Definition first_item (companies : json) : res json :=
  match companies with
  | JArr (x :: _) => Ok x
  | JArr [] => Raise (TypeError "list index out of range")
  | JStr (String c _) => Ok (JStr (String c EmptyString))
  | JStr EmptyString => Raise (TypeError "string index out of range")
  | JObj _ => Raise (KeyError "0")
  | JNull | JBool _ | JNum _ => Raise (TypeError "object is not subscriptable")
  end.

(** The companies handed to a flow must be text: [re.search], [str.join] and
    the dictionary of plans reject anything else with [TypeError].  The model
    raises at the hand-over and does not follow the callee up to the point
    where Python raises. *)
Definition as_text (v : json) : res string :=
  match v with
  | JStr s => Ok s
  | _ => Raise (TypeError "expected string")
  end.

Definition company_names (companies : json) : res (list string) :=
  match iterate companies with
  | Ok l => mapM as_text l
  | Raise e => Raise e
  end.

(** [intent_data.get(k, default)] *)
Definition py_get (k : string) (default : json) (intent_data : json) : res json :=
  match intent_data with
  | JObj d => Ok (get_or k default d)
  | _ => Raise (AttributeError "object has no attribute 'get'")
  end.

Definition off_topic_reply : string :=
  "I specialize in corporate strategy. Please ask me to research a company.".
Definition greeting_reply : string :=
  "Hello! I am your Enterprise Research Agent. Ask me to 'Analyze Tesla' or 'Compare Ford and GM'.".

(** [self.ask(user_text, status_callback)] *)
Definition ask (user_text : string) (cb : bool) : M string :=
  modify (fun w => with_chat (chat_history w ++ [mkChat "user" user_text]) w) ;;;
  notify cb DetectingIntent ;;;
  intent_data <- classify_intent user_text ;;
  intent <- lift (py_get "intent" (JStr "research") intent_data) ;;
  companies <- lift (py_get "companies" (JArr []) intent_data) ;;
  if eq_str intent "off_topic" then ret off_topic_reply
  else if eq_str intent "greeting" then ret greeting_reply
  else
    comparing <- (if eq_str intent "compare" then
                    match py_len companies with
                    | Some n => ret (2 <=? n)
                    | None => raise (TypeError "object has no len()")
                    end
                  else ret false) ;;
    if comparing then
      names <- lift (company_names companies) ;;
      compare_companies names cb
    else
      company <- (if truthy companies then lift (first_item companies)
                  else ret (JStr user_text)) ;;
      w <- get_world ;;
      if eq_str intent "follow_up" && negb (Dict.is_empty (company_memory w)) then
        match Dict.last_key (company_memory w) with
        | Some company => answer_followup company user_text
        | None => raise (TypeError "list index out of range")
        end
      else
        company <- lift (as_text company) ;;
        perform_deep_research company cb.

(** *** Editor utilities *)

Definition get_tool_calls : M (list ToolCall) :=
  w <- get_world ;; ret (tool_calls w).

Definition success_reply : string := "Report Regenerated Successfully.".
Definition not_found_reply : string := "Error: Company not found".

(** [mem["json"][section] = new_val] on the value stored under [json]. *)
Definition set_section (section : string) (new_val : json) (j : json) : res json :=
  match j with
  | JObj d => Ok (JObj (Dict.set section new_val d))
  | JArr _ => Raise (TypeError "list indices must be integers or slices, not str")
  | _ => Raise (TypeError "object does not support item assignment")
  end.

(** [self.update_company_section(company, section, new_val)].  [mem] is the
    stored plan itself, so each assignment to it is a write to the store. *)
Definition update_company_section (company section : string) (new_val : json)
  : M string :=
  w <- get_world ;;
  match Dict.get company (company_memory w) with
  | None => ret not_found_reply
  | Some [] => ret not_found_reply
  | Some mem =>
      old <- match Dict.get "json" mem with
             | Some j => ret j
             | None => raise (KeyError "json")
             end ;;
      new_json <- lift (set_section section new_val old) ;;
      let mem := Dict.set "json" new_json mem in
      modify (fun w => with_memory (Dict.set company mem (company_memory w)) w) ;;;
      new_text <- safe_generate_text (RewritePrompt section new_json) 8000 ;;
      let mem := Dict.set "text" (JStr new_text) mem in
      modify (fun w => with_memory (Dict.set company mem (company_memory w)) w) ;;;
      ret success_reply
  end.

End WithEnv.
End Agent.

Import Agent PyView.

(* ================================================================== *)
(** ** Reading a run *)
(* ================================================================== *)

(** The research flows, the market-data calls and the fallback searches a
    trace records (newest first, like the trace). *)
Definition researches (t : list Event) : list string :=
  flat_map (fun e => match e with EvResearch c => [c] | _ => [] end) t.
Definition yf_calls (t : list Event) : list string :=
  flat_map (fun e => match e with EvYf k => [k] | _ => [] end) t.
Definition ddgs_calls (t : list Event) : list (string * nat) :=
  flat_map (fun e => match e with EvDdgs q k => [(q, k)] | _ => [] end) t.

Definition is_search (e : Event) : bool :=
  match e with EvHttpGet _ _ _ | EvDdgs _ _ => true | _ => false end.
Definition is_lookup (e : Event) : bool :=
  match e with EvHttpGet _ _ _ | EvDdgs _ _ | EvYf _ => true | _ => false end.
Definition not_research (e : Event) : bool :=
  match e with EvResearch _ => false | _ => true end.

(** [quiet Q w w']: from [w] to [w'] the credentials, the memory and the chat
    history stayed as they were, and every event added satisfies [Q]. *)
Definition quiet (Q : Event -> bool) (w w' : World) : Prop :=
  google_api_key w' = google_api_key w /\
  cse_id w' = cse_id w /\
  company_memory w' = company_memory w /\
  chat_history w' = chat_history w /\
  exists evs, trace w' = evs ++ trace w /\ forallb Q evs = true.

(** [may Q m]: whatever [m] does, it is quiet. [does Q m]: moreover it
    returns. *)
Definition may (Q : Event -> bool) {A} (m : M A) : Prop :=
  forall w, quiet Q w (snd (m w)).
Definition does (Q : Event -> bool) {A} (m : M A) : Prop :=
  forall w, exists a w', m w = (Ok a, w') /\ quiet Q w w'.

(** Every result carries a title that is text. *)
Definition text_titles (rs : list (dict json)) : Prop :=
  Forall (fun h => exists t, Dict.get "title" h = Some (JStr t)) rs.

(** What the fallback provider gives at time [t]: its hits, mapped, or the
    empty list when the provider or the mapping raises. *)
Definition fallback_result (env : Env) (t : nat) (q : string) (k : nat)
  : list (dict json) :=
  match ddgs_text env t q k with
  | DdgsReturns hits =>
      match mapM ddgs_item hits with
      | Ok rs => rs
      | Raise _ => []
      end
  | DdgsRaises _ => []
  end.

(** What the flow stores under [json], given the text [out] that the
    extraction step produced. *)
Definition stored_json (out : string) : json :=
  match loads (clean_json_string out) with
  | Some v => v
  | None => parse_failure (clean_json_string out)
  end.




(** The agent once [ask] has recorded the utterance and announced the
    classification. *)
Definition after_hearing (user_text : string) (cb : bool) (w : World) : World :=
  snd (notify cb DetectingIntent
         (with_chat (chat_history w ++ [mkChat "user" user_text]) w)).

(** More fuel does not change what a scan delivers. *)
Definition mono_at (n : nat) : Prop :=
  (forall s out, parse_value n s = Some out ->
                 forall m, n <= m -> parse_value m s = Some out)
  /\ (forall s acc out, parse_elements n s acc = Some out ->
                        forall m, n <= m -> parse_elements m s acc = Some out)
  /\ (forall s acc out, parse_members n s acc = Some out ->
                        forall m, n <= m -> parse_members m s acc = Some out).

(** With fuel [n] a scan that succeeds consumes something, and succeeds
    with twice the number of characters consumed as fuel. *)
Definition enough_at (n : nat) : Prop :=
  (forall s v r, parse_value n s = Some (v, r) ->
     String.length r < String.length s
     /\ parse_value (2 * (String.length s - String.length r)) s = Some (v, r))
  /\ (forall s acc v r, parse_elements n s acc = Some (v, r) ->
     String.length r < String.length s
     /\ parse_elements (2 * (String.length s - String.length r)) s acc = Some (v, r))
  /\ (forall s acc v r, parse_members n s acc = Some (v, r) ->
     String.length r < String.length s
     /\ parse_members (2 * (String.length s - String.length r)) s acc = Some (v, r)).



(* ================================================================== *)
(** ** Scenarios *)
(* ================================================================== *)

Module Scenario.

(** A language model that answers each kind of prompt in a fixed way.  The
    narrative carries the time of the call; the answer to the extraction
    prompt is not JSON (its quotes are single); the comparison fails. *)
Definition model (t : nat) (p : Prompt) (max_tokens : nat) : GenOutcome :=
  match p with
  | IntentPrompt _ => GenReturns (mkGen (TextIs "{}") None)
  | ReportPrompt c _ _ =>
      GenReturns (mkGen (TextIs ("# Executive Summary " +++ Text.str_of_nat t)) None)
  | ExtractPrompt _ _ => GenReturns (mkGen (TextIs "{'overview': 'x'}") None)
  | FollowupPrompt _ _ => GenReturns (mkGen (TextIs "answer") None)
  | ComparePrompt _ => GenRaises "quota exceeded"
  | RewritePrompt _ _ => GenReturns (mkGen (TextIs "# Rewritten") None)
  end.

Definition hit : dict string :=
  [("title", "tesla stock"); ("href", "https://example.org"); ("body", "news")].

(** Fallback search available and answering with one hit; the market-data
    provider raises. *)
Definition env : Env :=
  mkEnv true
        (fun _ _ _ _ _ _ => HttpRaises "unreachable")
        (fun _ _ _ => DdgsReturns [hit])
        model
        (fun _ _ => YfRaises "no data")
        (fun t => Z.of_nat t).

(** The same with a hit whose title has no short word. *)
Definition env_long_title : Env :=
  mkEnv true (http_get env)
        (fun _ _ _ => DdgsReturns [[("title", "electric vehicles");
                                    ("href", "https://example.org");
                                    ("body", "news")]])
        model (yf_ticker env) (time_time env).


Definition dq : string := String (ascii_of_nat 34) EmptyString.

(** A model that classifies every utterance as a follow-up:
    it answers the intent prompt with an object whose [intent] is
    [follow_up] and whose [companies] is the empty list. *)
Definition follow_up_answer : string :=
  "{" +++ dq +++ "intent" +++ dq +++ ": " +++ dq +++ "follow_up" +++ dq +++ ", "
      +++ dq +++ "companies" +++ dq +++ ": []}".

Definition env_follow_up : Env :=
  mkEnv true (http_get env) (ddgs_text env)
        (fun t p max_tokens =>
           match p with
           | IntentPrompt _ => GenReturns (mkGen (TextIs follow_up_answer) None)
           | _ => model t p max_tokens
           end)
        (yf_ticker env) (time_time env).

(** A fresh agent without search credentials. *)
Definition fresh : World := mkWorld None None [] [] [] 0 [].

(** An agent that holds a plan for Tesla. *)
Definition tesla_plan : dict json :=
  [("text", JStr "edited"); ("original_text", JStr "first");
   ("json", JObj [("overview", JStr "cars")])].
Definition with_tesla : World :=
  mkWorld None None [("Tesla", tesla_plan)] [] [] 0 [].

(** An agent that researched Ford first and Tesla after it. *)
Definition ford_plan : dict json :=
  [("text", JStr "ford report"); ("original_text", JStr "ford report");
   ("json", JObj [])].
Definition with_ford_tesla : World :=
  mkWorld None None [("Ford", ford_plan); ("Tesla", tesla_plan)] [] [] 0 [].

End Scenario.

(* ================================================================== *)
(** ** The agent from its creation on *)
(* ================================================================== *)

(** [CompanyResearchAgent(genai_api_key, google_api_key, cse_id)]: [None]
    stands for the [ValueError] raised without a key for the model.  With a
    key, the set-up of the model client is taken to return. *)
Definition init (genai_api_key google_api_key cse_id : option string)
  : option World :=
  if configured genai_api_key
  then Some (mkWorld google_api_key cse_id [] [] [] 0 [])
  else None.

(** The calls a user of the class makes. *)
Inductive Call : Type :=
| CallAsk (user_text : string) (cb : bool)
| CallResearch (company_name : string) (cb : bool)
| CallFollowup (company question : string)
| CallCompare (companies : list string) (cb : bool)
| CallUpdate (company section : string) (new_val : json).

(** The agent after a call, whether the call returned or raised. *)
Definition run_call (env : Env) (c : Call) (w : World) : World :=
  match c with
  | CallAsk user_text cb => snd (ask env user_text cb w)
  | CallResearch company_name cb => snd (perform_deep_research env company_name cb w)
  | CallFollowup company question => snd (answer_followup env company question w)
  | CallCompare companies cb => snd (compare_companies env companies cb w)
  | CallUpdate company section new_val =>
      snd (update_company_section env company section new_val w)
  end.

Fixpoint run_calls (env : Env) (calls : list Call) (w : World) : World :=
  match calls with
  | [] => w
  | c :: rest => run_calls env rest (run_call env c w)
  end.

(** The utterances handed to [ask], as the messages it records. *)
Fixpoint asked (calls : list Call) : list ChatMessage :=
  match calls with
  | [] => []
  | CallAsk user_text _ :: rest => mkChat "user" user_text :: asked rest
  | _ :: rest => asked rest
  end.

(** An entry of the tool log within the bounds of [_log_tool]. *)
Definition bounded_call (c : ToolCall) : Prop :=
  String.length (input c) <= 300 /\ String.length (output c) <= 300.

(** The tools of the fallback search and of the market data. *)
Definition is_known_tool (tool : string) : bool :=
  String.eqb tool "DuckDuckGo" || String.eqb tool "Search Error"
  || String.eqb tool "YFinance".

Definition logged (c : ToolCall) : Prop :=
  bounded_call c /\ is_known_tool (tool c) = true.

Definition no_http (e : Event) : bool :=
  match e with EvHttpGet _ _ _ => false | _ => true end.

(** A plan as [perform_deep_research] stores it: the three keys, the two
    reports being text. *)
Definition plan_ok (plan : dict json) : Prop :=
  exists t o j,
    Dict.get "text" plan = Some (JStr t)
    /\ Dict.get "original_text" plan = Some (JStr o)
    /\ Dict.get "json" plan = Some j.

Definition memory_ok (m : dict (dict json)) : Prop :=
  Forall (fun kv => plan_ok (snd kv)) m.

(** [evolves w w']: what every method respects.  The credentials and the
    chat history stay; the tool log, the trace and the keys of the Memory
    Store only grow at their end, the log by bounded entries of the fallback
    search and of the market data, the trace by events other than HTTP
    requests; plans stay well formed; the clock does not go back. *)
Definition evolves (w w' : World) : Prop :=
  google_api_key w' = google_api_key w
  /\ cse_id w' = cse_id w
  /\ chat_history w' = chat_history w
  /\ (exists new, tool_calls w' = tool_calls w ++ new /\ Forall logged new)
  /\ (exists ks, Dict.keys (company_memory w')
                 = Dict.keys (company_memory w) ++ ks)
  /\ (memory_ok (company_memory w) -> memory_ok (company_memory w'))
  /\ (exists evs, trace w' = evs ++ trace w /\ forallb no_http evs = true)
  /\ tick w <= tick w'.

(** [keeps R m]: whatever [m] does, returning or raising, [R] relates the
    agent before to the agent after. *)
Definition keeps (R : World -> World -> Prop) {A} (m : M A) : Prop :=
  forall w, R w (snd (m w)).

(** The calls to the language model a trace records, newest first: the
    prompt, the token limit and the text that came back. *)
Definition llm_calls (t : list Event) : list (Prompt * nat * string) :=
  flat_map (fun e => match e with EvLlm p n out => [(p, n, out)] | _ => [] end) t.

Definition no_llm (e : Event) : bool :=
  match e with EvLlm _ _ _ => false | _ => true end.

(* ================================================================== *)
(** ** The tabs of [app.py] *)
(* ================================================================== *)

Module App.






(** One turn of the chat tab: the input is shown and kept in the history of
    the session, [ask] runs with the status box as callback, and its answer
    is kept too unless it raised ([st.error] is shown then).  Nothing
    happens without an input. *)
Definition chat_turn (env : Env) (user_input : string)
           (st : list ChatMessage * World) : list ChatMessage * World :=
  if truthy (JStr user_input) then
    let history := fst st ++ [mkChat "user" user_input] in
    match ask env user_input true (snd st) with
    | (Ok response, w') => (history ++ [mkChat "assistant" response], w')
    | (Raise _, w') => (history, w')
    end
  else st.

Fixpoint chat_turns (env : Env) (inputs : list string)
         (st : list ChatMessage * World) : list ChatMessage * World :=
  match inputs with
  | [] => st
  | i :: rest => chat_turns env rest (chat_turn env i st)
  end.

Definition from_user (m : ChatMessage) : bool := String.eqb (role m) "user".

End App.

(* ================================================================== *)
(** ** More scenarios *)
(* ================================================================== *)

Module Cases.

Definition quoted (s : string) : string := Scenario.dq +++ s +++ Scenario.dq.

(** The classifier's answer for an intent and a list of companies, as the
    intent prompt asks for it. *)
Definition decision (intent : string) (companies : list string) : string :=
  "{" +++ quoted "intent" +++ ": " +++ quoted intent +++ ", "
      +++ quoted "companies" +++ ": [" +++ Text.join ", " (map quoted companies)
      +++ "]}".

(** [Scenario.env] with the answers to the intent prompt and to the
    extraction prompt chosen. *)
Definition env_answering (intent_answer extract_answer : string) : Env :=
  mkEnv true (http_get Scenario.env) (ddgs_text Scenario.env)
        (fun t p max_tokens =>
           match p with
           | IntentPrompt _ => GenReturns (mkGen (TextIs intent_answer) None)
           | ExtractPrompt _ _ => GenReturns (mkGen (TextIs extract_answer) None)
           | _ => Scenario.model t p max_tokens
           end)
        (yf_ticker Scenario.env) (time_time Scenario.env).

Definition env_greeting : Env :=
  env_answering (decision "greeting" ["Tesla"]) "{}".

Definition env_compare : Env :=
  env_answering (decision "compare" ["Ford"; "Tesla"]) "{}".


(** The extraction step answers with a list, which is JSON but no object;
    the agent after researching Acme in that setting. *)
Definition env_list : Env := env_answering "{}" "[1, 2]".

Definition with_list : World :=
  snd (perform_deep_research env_list "Acme" false Scenario.fresh).

End Cases.

(* ================================================================== *)
(** ** The text and JSON primitives on examples *)
(* ================================================================== *)

Example strip_ex : Text.strip "  ab c  " = "ab c".
Proof. reflexivity. Qed.
Example replace_ex : Text.replace "```" EmptyString "```x```y" = "xy".
Proof. reflexivity. Qed.
Example rfind_ex : Text.rfind "}" "a}b}c" = Some 3.
Proof. reflexivity. Qed.
Example ticker_ex1 : Text.search_ticker "IBM Corp" = Some "IBM".
Proof. reflexivity. Qed.
Example ticker_ex2 : Text.search_ticker "Tesla" = None.
Proof. reflexivity. Qed.
Example ticker_ex3 : Text.search_ticker "ABCDEF" = None.
Proof. reflexivity. Qed.
Example ticker_ex4 : Text.search_ticker "AT&T" = Some "AT".
Proof. reflexivity. Qed.
Example ticker_ex5 : Text.search_ticker "x AB." = Some "AB".
Proof. reflexivity. Qed.
Example ticker_ex6 : Text.search_ticker "A1 _AB AB_" = None.
Proof. reflexivity. Qed.
Example ticker_ex7 : Text.search_ticker (Text.upper "tesla inc") = Some "TESLA".
Proof. reflexivity. Qed.

Example loads_ex1 : loads "{}" = Some (JObj []).
Proof. reflexivity. Qed.

(* ================================================================== *)
(** ** The JSON scanner has fuel enough *)
(* ================================================================== *)

Lemma parse_mono n : mono_at n.
Proof.
  induction n as [|n (IHv & IHe & IHm)]; [repeat split; discriminate|].
  repeat split.
  - intros s out H [|m] L; [lia|]. apply le_S_n in L.
    cbn [parse_value] in *.
    destruct s as [|c r]; [discriminate|].
    destruct (Text.code c =? 34); [exact H|].
    destruct (Text.code c =? 123).
    { destruct (skip_ws r) as [|c1 r1]; [discriminate|].
      destruct (Text.code c1 =? 125); [exact H|].
      destruct (Text.code c1 =? 34); [|discriminate]. eauto. }
    destruct (Text.code c =? 91).
    { destruct (skip_ws r) as [|c1 r1]; [discriminate|].
      destruct (Text.code c1 =? 93); [exact H|]. eauto. }
    exact H.
  - intros s acc out H [|m] L; [lia|]. apply le_S_n in L.
    cbn [parse_elements] in *.
    destruct (parse_value n s) as [[v r]|] eqn:E; [|discriminate].
    rewrite (IHv _ _ E m L).
    destruct (skip_ws r) as [|c r1]; [discriminate|].
    destruct (Text.code c =? 44); [eauto|exact H].
  - intros s acc out H [|m] L; [lia|]. apply le_S_n in L.
    cbn [parse_members] in *.
    destruct s as [|q r]; [discriminate|].
    destruct (Text.code q =? 34); [|discriminate].
    destruct (scan_string r) as [[key r1]|]; [|discriminate].
    destruct (skip_ws r1) as [|c r2]; [discriminate|].
    destruct (Text.code c =? 58); [|discriminate].
    destruct (parse_value n (skip_ws r2)) as [[v r3]|] eqn:E; [|discriminate].
    rewrite (IHv _ _ E m L).
    destruct (skip_ws r3) as [|d r4]; [discriminate|].
    destruct (Text.code d =? 44); [eauto|exact H].
Qed.

Lemma skip_ws_len s : String.length (skip_ws s) <= String.length s.
Proof. induction s as [|c r IH]; simpl; auto. destruct (is_ws c); simpl; lia. Qed.

Lemma scan_string_len_upto n : forall s, String.length s <= n -> forall body r,
  scan_string s = Some (body, r) -> String.length r < String.length s.
Proof.
  induction n as [|n IH]; intros s Ln body r H.
  { destruct s; [discriminate | simpl in Ln; lia]. }
  destruct s as [|c s1]; [discriminate|].
  cbn [scan_string] in H. cbn [String.length] in Ln.
  destruct (Text.code c =? 34).
  { injection H as _ <-. simpl. lia. }
  assert (P : forall a x, push a (scan_string x) = Some (body, r) ->
                          String.length x <= n ->
                          String.length r < S (String.length x)).
  { intros a x Hp L. unfold push in Hp.
    destruct (scan_string x) as [[b r']|] eqn:E; [|discriminate].
    injection Hp as _ <-. specialize (IH x L _ _ E). lia. }
  destruct (Text.code c =? 92).
  - destruct s1 as [|e r1]; [discriminate|].
    destruct (Text.code e =? 117).
    + destruct r1 as [|h1 [|h2 [|h3 [|h4 r2]]]]; try discriminate.
      destruct (hex4 h1 h2 h3 h4) as [k|]; [|discriminate].
      destruct (k <? 256); [|discriminate].
      apply P in H; cbn [String.length] in *; lia.
    + destruct (escape_char e); [|discriminate].
      apply P in H; cbn [String.length] in *; lia.
  - destruct (Text.code c <? 32); [discriminate|].
    apply P in H; cbn [String.length] in *; lia.
Qed.

Lemma scan_string_len s body r :
  scan_string s = Some (body, r) -> String.length r < String.length s.
Proof. apply (scan_string_len_upto (String.length s)). lia. Qed.

Lemma span_digits_len s : String.length (snd (span_digits s)) <= String.length s.
Proof.
  induction s as [|c r IH]; simpl; auto.
  destruct (Text.is_digit c); simpl; [|lia].
  destruct (span_digits r); simpl in *. lia.
Qed.

Lemma scan_frac_len s : String.length (snd (scan_frac s)) <= String.length s.
Proof.
  destruct s as [|c r]; simpl; auto.
  destruct (Text.code c =? 46); simpl; [|lia].
  pose proof (span_digits_len r) as L.
  destruct (span_digits r) as [[|d ds] rest]; simpl in *; lia.
Qed.

Lemma scan_exp_len s : String.length (snd (scan_exp s)) <= String.length s.
Proof.
  destruct s as [|e r]; cbn [scan_exp snd]; auto.
  destruct ((Text.code e =? 101) || (Text.code e =? 69)); cbn [snd]; [|lia].
  destruct r as [|g r'].
  - cbn. lia.
  - destruct ((Text.code g =? 43) || (Text.code g =? 45)).
    + pose proof (span_digits_len r') as L.
      destruct (span_digits r') as [[|d ds] rest]; cbn [snd String.length] in *; lia.
    + pose proof (span_digits_len (String g r')) as L.
      destruct (span_digits (String g r')) as [[|d ds] rest];
        cbn [snd String.length] in *; lia.
Qed.

Lemma scan_int_len s i r :
  scan_int s = Some (i, r) -> String.length r < String.length s.
Proof.
  destruct s as [|c s']; [discriminate|]. cbn [scan_int].
  destruct (Text.code c =? 48).
  - intros H. injection H as _ <-. simpl. lia.
  - destruct (Text.in_range 49 57 c) eqn:D; [|discriminate].
    intros H. injection H as H.
    assert (Text.is_digit c = true) as Dg.
    { unfold Text.is_digit, Text.in_range in *.
      apply andb_true_iff in D as [D1 D2]. apply Nat.leb_le in D1.
      apply andb_true_iff. split; [apply Nat.leb_le; lia | exact D2]. }
    cbn [span_digits] in H. rewrite Dg in H.
    pose proof (span_digits_len s') as L.
    destruct (span_digits s') as [ds rest]. injection H as _ <-.
    cbn [snd String.length] in *. lia.
Qed.

Lemma scan_number_len s lexeme r :
  scan_number s = Some (lexeme, r) -> String.length r < String.length s.
Proof.
  unfold scan_number.
  set (p := match s with
            | String c r0 => if Text.code c =? 45 then (String c EmptyString, r0)
                             else (EmptyString, s)
            | EmptyString => (EmptyString, s)
            end).
  assert (Lp : String.length (snd p) <= String.length s).
  { subst p. destruct s as [|c r0]; simpl; auto.
    destruct (Text.code c =? 45); simpl; lia. }
  destruct p as [sign s1]. cbn [snd] in Lp.
  destruct (scan_int s1) as [[i r1]|] eqn:Ei; [|discriminate].
  apply scan_int_len in Ei.
  pose proof (scan_frac_len r1) as Lf. destruct (scan_frac r1) as [f r2].
  pose proof (scan_exp_len r2) as Le. destruct (scan_exp r2) as [e r3].
  cbn [snd] in *. intros H. injection H as _ <-. lia.
Qed.

Lemma drop_len n s : String.length (Text.drop n s) = String.length s - n.
Proof.
  revert s. induction n as [|n IH]; intros s; simpl; [lia|].
  destruct s; simpl; auto.
Qed.

Lemma literal_len w v s out r :
  literal w v s = Some (out, r) -> 0 < String.length w -> s <> EmptyString ->
  String.length r < String.length s.
Proof.
  unfold literal. destruct (prefix w s); [|discriminate].
  intros H L N. injection H as _ <-. rewrite drop_len.
  destruct s; [congruence|]. cbn [String.length]. lia.
Qed.

(** Conclude with the length bound and fuel [S k], lifted to the fuel asked. *)
Ltac by_fuel k :=
  match goal with
  | |- _ /\ parse_value _ _ = _ =>
      split; [lia | apply (proj1 (parse_mono (S k))); [|lia]]
  | |- _ /\ parse_elements _ _ _ = _ =>
      split; [lia | apply (proj1 (proj2 (parse_mono (S k)))); [|lia]]
  | |- _ /\ parse_members _ _ _ = _ =>
      split; [lia | apply (proj2 (proj2 (parse_mono (S k)))); [|lia]]
  end.

Lemma parse_enough n : enough_at n.
Proof.
  induction n as [|n (IHv & IHe & IHm)]; [repeat split; discriminate|].
  repeat apply conj.
  - intros s v r H. cbn [parse_value] in H.
    destruct s as [|c r0] eqn:Es; [discriminate|]. rewrite <- Es in *.
    assert (Ls : String.length s = S (String.length r0)) by (now rewrite Es).
    assert (Ns : s <> EmptyString) by (rewrite Es; discriminate).
    destruct (Text.code c =? 34) eqn:C1.
    { destruct (scan_string r0) as [[body rest]|] eqn:E; [|discriminate].
      injection H as <- <-. apply scan_string_len in E as L.
      by_fuel 0. rewrite Es. cbn [parse_value]. now rewrite C1, E. }
    destruct (Text.code c =? 123) eqn:C2.
    { pose proof (skip_ws_len r0) as Lw.
      destruct (skip_ws r0) as [|c1 r1] eqn:Ew; [discriminate|].
      destruct (Text.code c1 =? 125) eqn:C3.
      { injection H as <- <-. cbn [String.length] in Lw.
        by_fuel 0. rewrite Es. cbn [parse_value]. now rewrite C1, C2, Ew, C3. }
      destruct (Text.code c1 =? 34) eqn:C4; [|discriminate].
      apply IHm in H as [L H]. cbn [String.length] in *.
      by_fuel (2 * (S (String.length r1) - String.length r)).
      rewrite Es. cbn [parse_value]. now rewrite C1, C2, Ew, C3, C4. }
    destruct (Text.code c =? 91) eqn:C3.
    { pose proof (skip_ws_len r0) as Lw.
      destruct (skip_ws r0) as [|c1 r1] eqn:Ew; [discriminate|].
      destruct (Text.code c1 =? 93) eqn:C4.
      { injection H as <- <-. cbn [String.length] in Lw.
        by_fuel 0. rewrite Es. cbn [parse_value]. now rewrite C1, C2, C3, Ew, C4. }
      apply IHe in H as [L H]. cbn [String.length] in *.
      by_fuel (2 * (S (String.length r1) - String.length r)).
      rewrite Es. cbn [parse_value]. now rewrite C1, C2, C3, Ew, C4. }
    assert (L : String.length r < String.length s).
    { repeat match type of H with
             | (if ?b then _ else _) = _ => destruct b
             end;
        try (eapply literal_len; [exact H | simpl; lia | exact Ns]).
      destruct (scan_number s) as [[lexeme rest]|] eqn:E; [|discriminate].
      injection H as _ <-. eapply scan_number_len, E. }
    by_fuel 0. rewrite Es at 1. cbn [parse_value]. rewrite C1, C2, C3.
    rewrite <- Es. exact H.
  - intros s acc v r H. cbn [parse_elements] in H.
    destruct (parse_value n s) as [[v0 r1]|] eqn:E; [|discriminate].
    apply IHv in E as [L1 E].
    pose proof (skip_ws_len r1) as Lw.
    destruct (skip_ws r1) as [|c r2] eqn:Ew; [discriminate|].
    cbn [String.length] in Lw.
    destruct (Text.code c =? 44) eqn:C1.
    + apply IHe in H as [L2 H]. pose proof (skip_ws_len r2) as Lw2.
      by_fuel (2 * (String.length s - String.length r) - 1).
      cbn [parse_elements].
      rewrite (proj1 (parse_mono _) _ _ E) by lia. rewrite Ew, C1.
      apply (proj1 (proj2 (parse_mono _)) _ _ _ H). lia.
    + destruct (Text.code c =? 93) eqn:C2; [|discriminate].
      injection H as <- <-.
      by_fuel (2 * (String.length s - String.length r1)).
      cbn [parse_elements]. now rewrite E, Ew, C1, C2.
  - intros s acc v r H. cbn [parse_members] in H.
    destruct s as [|q r0]; [discriminate|].
    destruct (Text.code q =? 34) eqn:C0; [|discriminate].
    destruct (scan_string r0) as [[key r1]|] eqn:Ek; [|discriminate].
    apply scan_string_len in Ek as Lk.
    pose proof (skip_ws_len r1) as Lw1.
    destruct (skip_ws r1) as [|c r2] eqn:Ew1; [discriminate|].
    destruct (Text.code c =? 58) eqn:C1; [|discriminate].
    pose proof (skip_ws_len r2) as Lw2.
    destruct (parse_value n (skip_ws r2)) as [[v0 r3]|] eqn:E; [|discriminate].
    apply IHv in E as [L3 E].
    pose proof (skip_ws_len r3) as Lw3.
    destruct (skip_ws r3) as [|d r4] eqn:Ew3; [discriminate|].
    cbn [String.length] in *.
    destruct (Text.code d =? 44) eqn:C2.
    + apply IHm in H as [L4 H]. pose proof (skip_ws_len r4) as Lw4.
      by_fuel (2 * (S (String.length r0) - String.length r) - 1).
      cbn [parse_members]. rewrite C0, Ek, Ew1, C1.
      rewrite (proj1 (parse_mono _) _ _ E) by lia. rewrite Ew3, C2.
      apply (proj2 (proj2 (parse_mono _)) _ _ _ H). lia.
    + destruct (Text.code d =? 125) eqn:C3; [|discriminate].
      injection H as <- <-.
      by_fuel (2 * (String.length (skip_ws r2) - String.length r3)).
      cbn [parse_members]. now rewrite C0, Ek, Ew1, C1, E, Ew3, C2, C3.
Qed.

(** [loads] never fails for want of fuel: it decodes whatever the scanner
    decodes with any amount of fuel. *)
Theorem loads_any_fuel s v :
  loads s = Some v <->
  exists n r, parse_value n (skip_ws s) = Some (v, r) /\ skip_ws r = EmptyString.
Proof.
  unfold loads. split.
  - destruct (parse_value _ _) as [[v0 r]|] eqn:E; [|discriminate].
    destruct (skip_ws r) eqn:Er; [|discriminate].
    intros H. injection H as <-. eauto.
  - intros (n & r & E & Er).
    apply (proj1 (parse_enough n)) in E as [L E].
    pose proof (skip_ws_len s) as Lw.
    rewrite (proj1 (parse_mono _) _ _ E) by lia. now rewrite Er.
Qed.

(* ================================================================== *)
(** ** Dictionaries in insertion order *)
(* ================================================================== *)

Section DictFacts.
Context {V : Type}.
Implicit Types (d : dict V) (k : string) (v : V).

Lemma get_set_same k v d : Dict.get k (Dict.set k v d) = Some v.
Proof.
  induction d as [|[k' v'] r IH]; simpl.
  - now rewrite String.eqb_refl.
  - destruct (String.eqb k k') eqn:E; simpl; rewrite E; auto.
Qed.

Lemma get_set_other k k' v d :
  k <> k' -> Dict.get k' (Dict.set k v d) = Dict.get k' d.
Proof.
  intros N. induction d as [|[k0 v0] r IH]; simpl.
  - destruct (String.eqb k' k) eqn:E; auto.
    apply String.eqb_eq in E. congruence.
  - destruct (String.eqb k k0) eqn:E; simpl.
    + apply String.eqb_eq in E. subst k0.
      destruct (String.eqb k' k) eqn:E'; auto.
      apply String.eqb_eq in E'. congruence.
    + now rewrite IH.
Qed.

(** A new key goes to the end. *)
Lemma set_absent k v d : Dict.get k d = None -> Dict.set k v d = d ++ [(k, v)].
Proof.
  induction d as [|[k' v'] r IH]; simpl; auto.
  destruct (String.eqb k k'); [discriminate|].
  intros H. now rewrite IH.
Qed.

(** Writing to a key that is there leaves the order of the keys alone. *)
Lemma keys_set_present k v d :
  Dict.mem k d = true -> Dict.keys (Dict.set k v d) = Dict.keys d.
Proof.
  unfold Dict.mem, Dict.keys.
  induction d as [|[k' v'] r IH]; simpl; [discriminate|].
  destruct (String.eqb k k') eqn:E; simpl; auto.
  intros H. now rewrite IH.
Qed.

Lemma keys_set_absent k v d :
  Dict.mem k d = false -> Dict.keys (Dict.set k v d) = Dict.keys d ++ [k].
Proof.
  unfold Dict.mem. intros H.
  rewrite set_absent by (destruct (Dict.get k d); congruence).
  unfold Dict.keys. now rewrite map_app.
Qed.


Lemma mem_set_same k v d : Dict.mem k (Dict.set k v d) = true.
Proof. unfold Dict.mem. now rewrite get_set_same. Qed.

Lemma mem_set_other k k' v d :
  k <> k' -> Dict.mem k' (Dict.set k v d) = Dict.mem k' d.
Proof. intros N. unfold Dict.mem. now rewrite get_set_other. Qed.

End DictFacts.

(* ================================================================== *)
(** ** Reasoning about runs *)
(* ================================================================== *)

Lemma quiet_refl Q w : quiet Q w w.
Proof. repeat split; auto. now exists []. Qed.

Lemma quiet_trans Q w1 w2 w3 : quiet Q w1 w2 -> quiet Q w2 w3 -> quiet Q w1 w3.
Proof.
  intros (A1 & A2 & A3 & A4 & e1 & T1 & F1) (B1 & B2 & B3 & B4 & e2 & T2 & F2).
  repeat split; try congruence.
  exists (e2 ++ e1). split.
  - now rewrite T2, T1, app_assoc.
  - rewrite forallb_app. now rewrite F1, F2.
Qed.

Lemma quiet_weaken (Q Q' : Event -> bool) w w' :
  (forall e, Q e = true -> Q' e = true) -> quiet Q w w' -> quiet Q' w w'.
Proof.
  intros I (A1 & A2 & A3 & A4 & evs & T & F).
  repeat split; auto. exists evs. split; auto.
  rewrite forallb_forall in *. auto.
Qed.

Lemma flat_map_silent {B} (f : Event -> list B) (Q : Event -> bool) evs :
  (forall e, Q e = true -> f e = []) ->
  forallb Q evs = true -> flat_map f evs = [].
Proof.
  intros H. induction evs as [|e r IH]; simpl; auto.
  intros F. apply andb_prop in F as [F1 F2].
  now rewrite (H e F1), IH.
Qed.

Lemma quiet_researches w w' :
  quiet not_research w w' -> researches (trace w') = researches (trace w).
Proof.
  intros (_ & _ & _ & _ & evs & T & F). rewrite T. unfold researches.
  rewrite flat_map_app, (flat_map_silent _ not_research); auto.
  intros []; simpl; auto; discriminate.
Qed.

Lemma quiet_yf_calls w w' :
  quiet is_search w w' -> yf_calls (trace w') = yf_calls (trace w).
Proof.
  intros (_ & _ & _ & _ & evs & T & F). rewrite T. unfold yf_calls.
  rewrite flat_map_app, (flat_map_silent _ is_search); auto.
  intros []; simpl; auto; discriminate.
Qed.

Section Rules.
Variable Q : Event -> bool.

Lemma does_may {A} (m : M A) : does Q m -> may Q m.
Proof. intros H w. destruct (H w) as (a & w' & E & q). now rewrite E. Qed.

Lemma may_ret {A} (a : A) : may Q (ret a).
Proof. intros w. apply quiet_refl. Qed.
Lemma may_raise {A} e : may Q (@raise A e).
Proof. intros w. apply quiet_refl. Qed.
Lemma may_lift {A} (r : res A) : may Q (lift r).
Proof. intros w. apply quiet_refl. Qed.
Lemma may_bind {A B} (m : M A) (k : A -> M B) :
  may Q m -> (forall a, may Q (k a)) -> may Q (bind m k).
Proof.
  intros Hm Hk w. unfold bind. specialize (Hm w).
  destruct (m w) as [[a|e] w1]; simpl in *; auto.
  eapply quiet_trans; [eassumption | apply Hk].
Qed.
Lemma may_try {A} (m : M A) (h : exn -> M A) :
  may Q m -> (forall e, may Q (h e)) -> may Q (try_catch m h).
Proof.
  intros Hm Hh w. unfold try_catch. specialize (Hm w).
  destruct (m w) as [[a|e] w1]; simpl in *; auto.
  eapply quiet_trans; [eassumption | apply Hh].
Qed.

Lemma does_ret {A} (a : A) : does Q (ret a).
Proof. intros w. exists a, w. split; auto. apply quiet_refl. Qed.
Lemma does_bind {A B} (m : M A) (k : A -> M B) :
  does Q m -> (forall a, does Q (k a)) -> does Q (bind m k).
Proof.
  intros Hm Hk w. unfold bind.
  destruct (Hm w) as (a & w1 & E & q1). rewrite E.
  destruct (Hk a w1) as (b & w2 & E2 & q2).
  exists b, w2. split; auto. eapply quiet_trans; eassumption.
Qed.
(** A handler that returns makes the whole [try] return. *)
Lemma does_try {A} (m : M A) (h : exn -> M A) :
  may Q m -> (forall e, does Q (h e)) -> does Q (try_catch m h).
Proof.
  intros Hm Hh w. unfold try_catch. specialize (Hm w).
  destruct (m w) as [[a|e] w1]; simpl in *.
  - now exists a, w1.
  - destruct (Hh e w1) as (b & w2 & E2 & q2).
    exists b, w2. split; auto. eapply quiet_trans; eassumption.
Qed.

Lemma does_get_world : does Q get_world.
Proof. intros w. exists w, w. split; auto. apply quiet_refl. Qed.
Lemma does_next_tick : does Q next_tick.
Proof.
  intros w. eexists _, _. split; [reflexivity|].
  repeat split; auto. now exists [].
Qed.
Lemma does_emit ev : Q ev = true -> does Q (emit ev).
Proof.
  intros H w. eexists _, _. split; [reflexivity|].
  repeat split; auto. exists [ev]. split; auto. simpl. now rewrite H.
Qed.
Lemma does_log_tool env tool inp out : does Q (log_tool env tool inp out).
Proof.
  intros w. eexists _, _. split; [reflexivity|].
  repeat split; auto. now exists [].
Qed.
Lemma does_notify cb m : Q (EvStatus m) = true -> does Q (notify cb m).
Proof.
  intros H. destruct cb; simpl; [now apply does_emit | apply does_ret].
Qed.

End Rules.

(* ================================================================== *)
(** ** The methods, one by one *)
(* ================================================================== *)

Section Methods.
Variable env : Env.

(** *** The search layer *)

(** The URL literal starts with a bracket: no adapter is mounted for it. *)
Lemma cse_url_no_adapter : has_adapter CSE_URL = false.
Proof. reflexivity. Qed.

Lemma requests_get_cse_raises key cx q num w :
  requests_get env CSE_URL key cx q num w = (Raise (InvalidSchema CSE_URL), w).
Proof. unfold requests_get. now rewrite cse_url_no_adapter. Qed.

(** A response with status 200 whose body decodes and maps is answered with
    the mapped results, which [search_web] returns at once ... *)
Lemma on_response_200 query res data rs w :
  status_code res = 200 -> json_body res = Some data ->
  google_results data = Ok rs ->
  exists w', on_response env query res w = (Ok (Some rs), w')
             /\ trace w' = trace w.
Proof.
  intros Hs Hb Hr. unfold on_response. rewrite Hs, Hb. cbn [Nat.eqb].
  cbv [bind ret lift log_tool next_tick modify]. rewrite Hr.
  eexists. split; reflexivity.
Qed.

(** ... but no response ever arrives: part A never returns results and
    leaves no mark. *)
Lemma google_cse_falls_through q k w : google_cse env q k w = (Ok None, w).
Proof.
  unfold google_cse, bind, get_world.
  destruct (configured (google_api_key w) && configured (cse_id w)).
  - unfold try_catch. now rewrite requests_get_cse_raises.
  - reflexivity.
Qed.

Lemma search_web_is_fallback q k w : search_web env q k w = duckduckgo env q k w.
Proof. unfold search_web, bind. now rewrite google_cse_falls_through. Qed.

Lemma ddgs_item_title r h :
  ddgs_item r = Ok h -> exists t, Dict.get "title" h = Some (JStr t).
Proof.
  unfold ddgs_item.
  destruct (Dict.get "title" r) as [t|]; [|discriminate].
  destruct (Dict.get "href" r); [|discriminate].
  destruct (Dict.get "body" r); [|discriminate].
  intros E. injection E as <-. now exists t.
Qed.

Lemma mapM_ddgs_titles hits rs : mapM ddgs_item hits = Ok rs -> text_titles rs.
Proof.
  revert rs. induction hits as [|r hits IH]; simpl; intros rs E.
  - injection E as <-. constructor.
  - destruct (ddgs_item r) as [h|] eqn:Eh; [|discriminate].
    destruct (mapM ddgs_item hits) as [hs|]; [|discriminate].
    injection E as <-. constructor; eauto using ddgs_item_title.
    now apply IH.
Qed.

Lemma fallback_result_titles t q k : text_titles (fallback_result env t q k).
Proof.
  unfold fallback_result. destruct (ddgs_text env t q k); [constructor|].
  destruct (mapM ddgs_item hits) eqn:E; [|constructor].
  eauto using mapM_ddgs_titles.
Qed.

Lemma duckduckgo_run q k w :
  ddgs_imported env = true ->
  exists w', duckduckgo env q k w = (Ok (fallback_result env (tick w) q k), w')
             /\ trace w' = EvDdgs q k :: trace w
             /\ quiet is_search w w'.
Proof.
  intros I. unfold duckduckgo, fallback_result. rewrite I.
  cbv [try_catch bind ddgs_search next_tick emit modify lift ret raise log_tool].
  destruct (ddgs_text env (tick w) q k) as [msg|hits].
  - eexists. split; [reflexivity|]. split; [reflexivity|].
    repeat split; auto. now exists [EvDdgs q k].
  - destruct (mapM ddgs_item hits) as [rs|e].
    + eexists. split; [reflexivity|]. split; [reflexivity|].
      repeat split; auto. now exists [EvDdgs q k].
    + eexists. split; [reflexivity|]. split; [reflexivity|].
      repeat split; auto. now exists [EvDdgs q k].
Qed.

Lemma duckduckgo_unavailable q k w :
  ddgs_imported env = false -> duckduckgo env q k w = (Ok [], w).
Proof. intros I. unfold duckduckgo. now rewrite I. Qed.

(** [search_web] always returns, with text titles, and only searches. *)
Lemma search_web_returns q k w :
  exists rs w', search_web env q k w = (Ok rs, w')
                /\ text_titles rs /\ quiet is_search w w'.
Proof.
  rewrite search_web_is_fallback.
  destruct (ddgs_imported env) eqn:I.
  - destruct (duckduckgo_run q k w I) as (w' & E & _ & qu).
    eauto using fallback_result_titles.
  - rewrite duckduckgo_unavailable by auto.
    exists [], w. repeat split; auto; [constructor | now exists []].
Qed.

(** *** The language model *)

(** [safe_generate_text] always returns a text; it only moves the clock and
    records the call. *)
Lemma safe_generate_text_run p mt w :
  exists out, safe_generate_text env p mt w
              = (Ok out, with_trace (EvLlm p mt out :: trace w)
                                    (with_tick (S (tick w)) w)).
Proof.
  cbv [safe_generate_text bind try_catch model_generate next_tick
       emit modify ret raise].
  destruct (generate_content env (tick w) p mt) as [msg|resp].
  - eexists; reflexivity.
  - destruct (resp_text resp) as [|s|msg].
    + destruct (resp_candidates resp) as [[|parts cs]|]; eexists; reflexivity.
    + destruct (truthy (JStr s)).
      * eexists; reflexivity.
      * destruct (resp_candidates resp) as [[|parts cs]|]; eexists; reflexivity.
    + eexists; reflexivity.
Qed.

Lemma safe_generate_text_quiet p mt w out w' :
  safe_generate_text env p mt w = (Ok out, w') -> quiet not_research w w'.
Proof.
  destruct (safe_generate_text_run p mt w) as (o & E). rewrite E.
  intros H. injection H as <- <-.
  repeat split; auto. now exists [EvLlm p mt o].
Qed.

Lemma bind_ok {A B} (m : M A) (k : A -> M B) w a w1 :
  m w = (Ok a, w1) -> bind m k w = k a w1.
Proof. intros E. unfold bind. now rewrite E. Qed.

Lemma search_is_lookup e : is_search e = true -> is_lookup e = true.
Proof. destruct e; simpl; auto. Qed.
Lemma lookup_not_research e : is_lookup e = true -> not_research e = true.
Proof. destruct e; simpl; auto. Qed.
Lemma search_not_research e : is_search e = true -> not_research e = true.
Proof. destruct e; simpl; auto. Qed.

(** *** The financial layer *)

(** The ticker detection always returns: the title it reads is text. *)
Lemma detect_ticker_returns company w :
  exists t w', detect_ticker env company w = (Ok t, w') /\ quiet is_search w w'.
Proof.
  unfold detect_ticker.
  destruct (Text.search_ticker company) as [t|].
  - exists (Some t), w. split; auto. apply quiet_refl.
  - destruct (search_web_returns (company +++ " stock ticker symbol") 1 w)
      as (rs & w' & E & T & qu).
    rewrite (bind_ok _ _ _ _ _ E).
    destruct T as [|h rs (t & Ht) _].
    + now exists None, w'.
    + unfold get_or. rewrite Ht. eexists _, w'. split; [reflexivity | auto].
Qed.

Lemma yf_lookup_may ticker : may is_lookup (yf_lookup env ticker).
Proof.
  unfold yf_lookup.
  apply may_bind; [apply does_may, does_next_tick|]. intros t.
  apply may_bind; [apply does_may, does_emit; reflexivity|]. intros _.
  destruct (yf_ticker env t ticker); [apply may_raise | apply may_ret].
Qed.

(** The market-data step always returns: its handler turns every exception
    into an error marker. *)
Lemma yfinance_snapshot_does ticker : does is_lookup (yfinance_snapshot env ticker).
Proof.
  unfold yfinance_snapshot. apply does_try.
  - apply may_bind; [apply yf_lookup_may|]. intros tk.
    apply may_bind.
    + destruct (fast_info tk) as [fi|]; [|apply may_ret].
      destruct (truthy (last_price fi)); apply may_ret.
    + intros [d|].
      * apply may_bind; [apply does_may, does_log_tool | intros; apply may_ret].
      * destruct (truthy (JObj (info tk)) && Dict.mem "regularMarketPrice" (info tk));
          [|apply may_ret].
        apply may_bind; [apply may_lift|]. intros summary.
        apply may_bind; [apply does_may, does_log_tool | intros; apply may_ret].
  - intros e. apply does_ret.
Qed.

Lemma fetch_financials_returns company w :
  exists d w', fetch_financials env company w = (Ok d, w') /\ quiet is_lookup w w'.
Proof.
  unfold fetch_financials.
  destruct (detect_ticker_returns company w) as (t & w1 & E & q1).
  rewrite (bind_ok _ _ _ _ _ E).
  apply (quiet_weaken _ is_lookup) in q1; [|apply search_is_lookup].
  destruct t as [ticker|].
  - destruct (yfinance_snapshot_does ticker w1) as (d & w2 & E2 & q2).
    exists d, w2. split; auto. eapply quiet_trans; eassumption.
  - eexists _, w1. split; [reflexivity | auto].
Qed.

(** *** The research flow *)

Lemma notify_run cb m w :
  exists w', notify cb m w = (Ok tt, w') /\ quiet not_research w w'.
Proof.
  destruct (does_notify not_research cb m eq_refl w) as ([] & w' & E & q).
  eauto.
Qed.

(** One research flow, end to end: it returns the narrative, stores a fresh
    plan under the company name, and its last call to the outside world is
    the extraction step. *)
Lemma perform_deep_research_run c cb w :
  exists report out rest w',
    perform_deep_research env c cb w = (Ok report, w')
    /\ company_memory w' = Dict.set c (fresh_plan report (stored_json out))
                                    (company_memory w)
    /\ trace w' = EvLlm (ExtractPrompt (Text.take 20000 report) c) 4000 out :: rest
    /\ researches (trace w') = c :: researches (trace w)
    /\ google_api_key w' = google_api_key w
    /\ cse_id w' = cse_id w
    /\ chat_history w' = chat_history w.
Proof.
  unfold perform_deep_research.
  set (w0 := with_trace (EvResearch c :: trace w) w).
  rewrite (bind_ok _ _ w tt w0) by reflexivity.
  destruct (notify_run cb (Searching c) w0) as (w1 & E1 & q1).
  rewrite (bind_ok _ _ _ _ _ E1).
  destruct (search_web_returns (c +++ " strategic analysis news") 5 w1)
    as (search_data & w2 & E2 & _ & q2).
  rewrite (bind_ok _ _ _ _ _ E2).
  apply (quiet_weaken _ not_research) in q2; [|apply search_not_research].
  destruct (notify_run cb AnalyzingMarkets w2) as (w3 & E3 & q3).
  rewrite (bind_ok _ _ _ _ _ E3).
  destruct (fetch_financials_returns c w3) as (fin_data & w4 & E4 & q4).
  rewrite (bind_ok _ _ _ _ _ E4).
  apply (quiet_weaken _ not_research) in q4; [|apply lookup_not_research].
  destruct (notify_run cb WritingReport w4) as (w5 & E5 & q5).
  rewrite (bind_ok _ _ _ _ _ E5).
  destruct (safe_generate_text_run (ReportPrompt c search_data fin_data) 8000 w5)
    as (report & E6).
  pose proof (safe_generate_text_quiet _ _ _ _ _ E6) as q6.
  rewrite (bind_ok _ _ _ _ _ E6).
  match type of E6 with _ = (_, ?x) => set (w6 := x) in * end.
  destruct (notify_run cb ExtractingData w6) as (w7 & E7 & q7).
  rewrite (bind_ok _ _ _ _ _ E7).
  destruct (safe_generate_text_run
              (ExtractPrompt (Text.take 20000 report) c) 4000 w7) as (out & E8).
  pose proof (safe_generate_text_quiet _ _ _ _ _ E8) as q8.
  rewrite (bind_ok _ _ _ _ _ E8).
  match type of E8 with _ = (_, ?x) => set (w8 := x) in * end.
  assert (Q : quiet not_research w0 w8)
    by (repeat (eapply quiet_trans; [eassumption|]); apply quiet_refl).
  pose proof (quiet_researches _ _ Q) as R.
  destruct Q as (K1 & K2 & K3 & K4 & _).
  exists report, out, (trace w7). eexists. split; [reflexivity|].
  cbn [company_memory with_memory trace google_api_key cse_id chat_history].
  repeat split; auto. now rewrite K3.
Qed.

End Methods.

(* ================================================================== *)
(** ** Which companies a comparison researches *)
(* ================================================================== *)







Section Comparison.
Variable env : Env.



End Comparison.

(* ================================================================== *)
(** ** The properties *)
(* ================================================================== *)

Section Properties.
Variable env : Env.

(** C8. [update_company_section] on a company key that is not in the Memory
    Store returns the error text "Error: Company not found" and leaves the
    agent exactly as it was: no entry is created, none is modified. *)
Theorem update_unknown_company company section new_val w :
  Dict.get company (company_memory w) = None ->
  update_company_section env company section new_val w = (Ok not_found_reply, w).
Proof.
  intros H. unfold update_company_section.
  rewrite (bind_ok _ _ w w w) by reflexivity. now rewrite H.
Qed.




End Properties.

Lemma update_unknown_company_witness :
  Dict.get "Nonexistent" (company_memory Scenario.with_tesla) = None
  /\ update_company_section Scenario.env "Nonexistent" "overview" (JStr "x")
                            Scenario.with_tesla
     = (Ok "Error: Company not found", Scenario.with_tesla).
Proof.
  split; [reflexivity|].
  apply (update_unknown_company Scenario.env). reflexivity.
Defined.

(* ================================================================== *)
(** ** The Section Editor and [original_text] *)
(* ================================================================== *)

Section Editor.
Variable env : Env.

(** The editor on a plan whose [json] accepts the assignment: the plan gets
    the new [json], one call goes to the language model, and its answer
    becomes the [text]. *)
Lemma update_company_section_run company section new_val w plan old new_json :
  Dict.get company (company_memory w) = Some plan ->
  Dict.get "json" plan = Some old ->
  set_section section new_val old = Ok new_json ->
  exists new_text w',
    update_company_section env company section new_val w = (Ok success_reply, w')
    /\ trace w' = EvLlm (RewritePrompt section new_json) 8000 new_text :: trace w
    /\ company_memory w'
       = Dict.set company
           (Dict.set "text" (JStr new_text) (Dict.set "json" new_json plan))
           (Dict.set company (Dict.set "json" new_json plan) (company_memory w)).
Proof.
  intros Hc Hj Hs. unfold update_company_section.
  rewrite (bind_ok _ _ w w w) by reflexivity. rewrite Hc.
  destruct plan as [|kv plan']; [discriminate|].
  rewrite Hj. rewrite (bind_ok _ _ w old w) by reflexivity.
  rewrite (bind_ok _ _ w new_json w) by (unfold lift; now rewrite Hs).
  set (plan1 := Dict.set "json" new_json (kv :: plan')).
  set (w1 := with_memory (Dict.set company plan1 (company_memory w)) w).
  rewrite (bind_ok _ _ w tt w1) by reflexivity.
  destruct (safe_generate_text_run env (RewritePrompt section new_json) 8000 w1)
    as (new_text & E).
  rewrite (bind_ok _ _ _ _ _ E).
  exists new_text. eexists. split; [reflexivity|]. split; reflexivity.
Qed.


End Editor.

Section Properties_of_plans.
Variable env : Env.


(** C2, as the code has it.  On a company that is in the Memory Store, with
    an object stored as its [json] and a section name that is not among the
    keys of that object, [update_company_section] reports success: the
    section is added as a new last key holding the new value, the language
    model is asked once for a rewrite and its answer becomes the [text];
    the plans of the other companies stay as they were. *)
Theorem update_unknown_section_adds_it company section new_val w plan fields :
  Dict.get company (company_memory w) = Some plan ->
  Dict.get "json" plan = Some (JObj fields) ->
  Dict.mem section fields = false ->
  let new_json := JObj (fields ++ [(section, new_val)]) in
  exists new_text w',
    update_company_section env company section new_val w = (Ok success_reply, w')
    /\ trace w' = EvLlm (RewritePrompt section new_json) 8000 new_text :: trace w
    /\ Dict.get company (company_memory w')
       = Some (Dict.set "text" (JStr new_text) (Dict.set "json" new_json plan))
    /\ (forall c, c <> company ->
                  Dict.get c (company_memory w') = Dict.get c (company_memory w)).
Proof.
  intros Hc Hj Hm new_json.
  assert (Hs : set_section section new_val (JObj fields) = Ok new_json).
  { unfold set_section, new_json. rewrite set_absent; auto.
    unfold Dict.mem in Hm. destruct (Dict.get section fields); congruence. }
  destruct (update_company_section_run env _ _ _ _ _ _ _ Hc Hj Hs)
    as (new_text & w' & E & T & Mem).
  exists new_text, w'. repeat split; auto.
  - now rewrite Mem, get_set_same.
  - intros c N. now rewrite Mem, !get_set_other by auto.
Qed.

End Properties_of_plans.


(** C2 fails as stated: with a section name that is not a key of the stored
    JSON the call reports success and changes the Memory Store. *)
Lemma unknown_section_is_no_error :
  let r := update_company_section Scenario.env "Tesla" "pricing" (JStr "x")
                                  Scenario.with_tesla in
  Dict.get "Tesla" (company_memory Scenario.with_tesla) = Some Scenario.tesla_plan
  /\ Dict.get "json" Scenario.tesla_plan = Some (JObj [("overview", JStr "cars")])
  /\ Dict.mem "pricing" [("overview", JStr "cars")] = false
  /\ fst r = Ok "Report Regenerated Successfully."
  /\ Dict.get "Tesla" (company_memory (snd r))
     = Some [("text", JStr "# Rewritten"); ("original_text", JStr "first");
             ("json", JObj [("overview", JStr "cars"); ("pricing", JStr "x")])]
  /\ company_memory (snd r) <> company_memory Scenario.with_tesla.
Proof.
  vm_compute. repeat split; discriminate.
Qed.

Lemma update_unknown_section_adds_it_witness :
  exists new_text w',
    update_company_section Scenario.env "Tesla" "pricing" (JStr "x")
                           Scenario.with_tesla
    = (Ok success_reply, w')
    /\ trace w'
       = EvLlm (RewritePrompt "pricing"
                  (JObj ([("overview", JStr "cars")] ++ [("pricing", JStr "x")])))
               8000 new_text :: trace Scenario.with_tesla
    /\ Dict.get "Tesla" (company_memory w')
       = Some (Dict.set "text" (JStr new_text)
                 (Dict.set "json"
                    (JObj ([("overview", JStr "cars")] ++ [("pricing", JStr "x")]))
                    Scenario.tesla_plan))
    /\ (forall c, c <> "Tesla" ->
                  Dict.get c (company_memory w')
                  = Dict.get c (company_memory Scenario.with_tesla)).
Proof.
  apply (update_unknown_section_adds_it Scenario.env "Tesla" "pricing" (JStr "x")
           Scenario.with_tesla Scenario.tesla_plan [("overview", JStr "cars")]);
    reflexivity.
Defined.

(* ================================================================== *)
(** ** What [classify_intent] returns *)
(* ================================================================== *)






Section Intent.
Variable env : Env.


End Intent.


(* ================================================================== *)
(** ** Search: the fallback path *)
(* ================================================================== *)

Section Search.
Variable env : Env.


(** C7, as the code has it.  When the company text holds no bare token of
    one to five capital letters, and the one-result search for its ticker
    gives no hit, or a first hit whose title, put in capitals, holds no such
    token either, [fetch_financials] returns the marker "Could not detect
    ticker." right after that search, without a call to the market-data
    provider. *)
Theorem no_ticker_no_market_data company w hits w1 :
  Text.search_ticker company = None ->
  search_web env (company +++ " stock ticker symbol") 1 w = (Ok hits, w1) ->
  match hits with
  | [] => True
  | h :: _ => exists title,
               get_or "title" (JStr EmptyString) h = JStr title
               /\ Text.search_ticker (Text.upper title) = None
  end ->
  fetch_financials env company w
  = (Ok [("error", JStr "Could not detect ticker.")], w1)
  /\ yf_calls (trace w1) = yf_calls (trace w).
Proof.
  intros Hc Hs Hh. split.
  - unfold fetch_financials, detect_ticker. rewrite Hc.
    rewrite (bind_ok _ _ w None w1); auto.
    rewrite (bind_ok _ _ _ _ _ Hs).
    destruct hits as [|h rest]; auto.
    destruct Hh as (title & -> & ->). reflexivity.
  - destruct (search_web_returns env (company +++ " stock ticker symbol") 1 w)
      as (rs & w' & E & _ & qu).
    rewrite Hs in E. injection E as _ <-. now apply quiet_yf_calls.
Qed.

End Search.


(** C7 fails as stated: neither the company text nor the title of the hit
    holds a token of capital letters, yet the title in capitals does, and the
    market-data provider is called with it. *)
Lemma lower_case_title_gives_a_ticker :
  let r := fetch_financials Scenario.env "tesla" Scenario.fresh in
  Text.search_ticker "tesla" = None
  /\ fst (search_web Scenario.env ("tesla" +++ " stock ticker symbol") 1
                     Scenario.fresh)
     = Ok [[("title", JStr "tesla stock"); ("link", JStr "https://example.org");
            ("snippet", JStr "news")]]
  /\ Text.search_ticker "tesla stock" = None
  /\ fst r = Ok [("error", JStr "no data")]
  /\ yf_calls (trace (snd r)) = ["TESLA"].
Proof.
  vm_compute. repeat split.
Qed.


Lemma no_ticker_no_market_data_witness :
  let w1 := snd (search_web Scenario.env_long_title
                            ("tesla" +++ " stock ticker symbol") 1 Scenario.fresh) in
  fetch_financials Scenario.env_long_title "tesla" Scenario.fresh
  = (Ok [("error", JStr "Could not detect ticker.")], w1)
  /\ yf_calls (trace w1) = yf_calls (trace Scenario.fresh).
Proof.
  apply (no_ticker_no_market_data Scenario.env_long_title "tesla" Scenario.fresh
           [[("title", JStr "electric vehicles");
             ("link", JStr "https://example.org"); ("snippet", JStr "news")]]).
  - reflexivity.
  - reflexivity.
  - exists "electric vehicles". split; reflexivity.
Defined.

(* ================================================================== *)
(** ** Follow-up questions *)
(* ================================================================== *)

Section LastKey.
Context {V : Type}.
Implicit Types (d : dict V).





End LastKey.

Section FollowUp.
Variable env : Env.

Lemma classify_intent_quiet user_text w :
  quiet not_research w (snd (classify_intent env user_text w)).
Proof.
  destruct (safe_generate_text_run env (IntentPrompt user_text) 200 w) as (out & E).
  pose proof (safe_generate_text_quiet _ _ _ _ _ _ E) as q.
  unfold classify_intent, try_catch. rewrite (bind_ok _ _ _ _ _ E).
  destruct (Text.find _ _); [destruct (loads _)|]; exact q.
Qed.


Lemma after_hearing_quiet user_text cb w :
  company_memory (after_hearing user_text cb w) = company_memory w
  /\ researches (trace (after_hearing user_text cb w)) = researches (trace w).
Proof. destruct cb; split; reflexivity. Qed.


End FollowUp.


(** The follow-up of that scenario is about Tesla, the key inserted last. *)
Example follow_up_scenario :
  fst (ask Scenario.env_follow_up "And its margins?" true Scenario.with_ford_tesla)
  = Ok "answer"
  /\ Dict.last_key (company_memory Scenario.with_ford_tesla) = Some "Tesla"
  /\ hd_error (trace (snd (ask Scenario.env_follow_up "And its margins?" true
                                Scenario.with_ford_tesla)))
     = Some (EvLlm (FollowupPrompt "edited" "And its margins?") 8192 "answer").
Proof. vm_compute. repeat split. Qed.

(* ================================================================== *)
(** ** Runs of the scenarios *)
(* ================================================================== *)

(** A research whose extraction step answers with text that is not JSON:
    the narrative is returned and stored, next to the error payload. *)
Example bad_extraction_scenario :
  let r := perform_deep_research Scenario.env "Tesla" true Scenario.fresh in
  loads "{'overview': 'x'}" = None
  /\ fst r = Ok "# Executive Summary 5"
  /\ Dict.get "Tesla" (company_memory (snd r))
     = Some [("text", JStr "# Executive Summary 5");
             ("original_text", JStr "# Executive Summary 5");
             ("json", JObj [("error", JStr "Failed to parse JSON");
                            ("raw", JStr "{'overview': 'x'}")])].
Proof. vm_compute. repeat split. Qed.

(** A comparison of Tesla (known), Ford (new, asked twice) and GM (new):
    Ford and GM are researched once each, in that order, and the call
    returns although the model fails on the comparison prompt. *)
Example comparison_scenario :
  let r := compare_companies Scenario.env ["Tesla"; "Ford"; "GM"; "Ford"] true
                             Scenario.with_tesla in
  fst r = Ok "Error generating content: quota exceeded"
  /\ rev (researches (trace (snd r))) = ["Ford"; "GM"]
  /\ Dict.keys (company_memory (snd r)) = ["Tesla"; "Ford"; "GM"].
Proof. vm_compute. repeat split. Qed.

(** With credentials for the primary provider the search still goes to the
    fallback: no request is sent for the URL literal of the source. *)
Example configured_search_scenario :
  let w := mkWorld (Some "key") (Some "cx") [] [] [] 0 [] in
  trace (snd (search_web Scenario.env "Tesla" 5 w)) = [EvDdgs "Tesla" 5].
Proof. vm_compute. reflexivity. Qed.

(** Ford, then Tesla, then Ford again: the key inserted last is still
    Tesla, although Ford was the last company researched. *)
Example second_research_keeps_the_order :
  let w1 := snd (perform_deep_research Scenario.env "Ford" false Scenario.fresh) in
  let w2 := snd (perform_deep_research Scenario.env "Tesla" false w1) in
  let w3 := snd (perform_deep_research Scenario.env "Ford" false w2) in
  Dict.keys (company_memory w3) = ["Ford"; "Tesla"]
  /\ Dict.last_key (company_memory w3) = Some "Tesla".
Proof. vm_compute. repeat split. Qed.

(* ================================================================== *)
(** ** What every method respects *)
(* ================================================================== *)

Lemma take_length n s : String.length (Text.take n s) <= n.
Proof.
  revert s. induction n as [|n IH]; intros [|c r]; simpl; try lia.
  specialize (IH r). lia.
Qed.

Lemma evolves_refl w : evolves w w.
Proof.
  repeat split; auto.
  - exists []. split; [now rewrite app_nil_r | constructor].
  - exists []. now rewrite app_nil_r.
  - exists []. split; reflexivity.
Qed.

Lemma evolves_trans w1 w2 w3 : evolves w1 w2 -> evolves w2 w3 -> evolves w1 w3.
Proof.
  intros (A1 & A2 & A3 & (n1 & L1 & B1) & (k1 & K1) & M1 & (e1 & T1 & F1) & C1)
         (A1' & A2' & A3' & (n2 & L2 & B2) & (k2 & K2) & M2 & (e2 & T2 & F2) & C2).
  repeat split; try congruence; auto; try lia.
  - exists (n1 ++ n2). split.
    + now rewrite L2, L1, app_assoc.
    + apply Forall_app; auto.
  - exists (k1 ++ k2). now rewrite K2, K1, app_assoc.
  - exists (e2 ++ e1). split.
    + now rewrite T2, T1, app_assoc.
    + now rewrite forallb_app, F2, F1.
Qed.

(** A quiet step without HTTP requests evolves, provided its log entries
    are bounded and of the known tools. *)
Lemma quiet_evolves w w' :
  quiet no_http w w' ->
  (exists new, tool_calls w' = tool_calls w ++ new /\ Forall logged new) ->
  tick w <= tick w' ->
  evolves w w'.
Proof.
  intros (A1 & A2 & A3 & A4 & evs & T & F) L C.
  repeat split; auto.
  - exists []. now rewrite A3, app_nil_r.
  - now rewrite A3.
  - now exists evs.
Qed.

Section Keeping.
Variable R : World -> World -> Prop.
Hypothesis R_refl : forall w, R w w.
Hypothesis R_trans : forall w1 w2 w3, R w1 w2 -> R w2 w3 -> R w1 w3.

Lemma keeps_ret {A} (a : A) : keeps R (ret a).
Proof. intros w. apply R_refl. Qed.
Lemma keeps_raise {A} e : keeps R (@raise A e).
Proof. intros w. apply R_refl. Qed.
Lemma keeps_lift {A} (r : res A) : keeps R (lift r).
Proof. intros w. apply R_refl. Qed.
Lemma keeps_get_world : keeps R get_world.
Proof. intros w. apply R_refl. Qed.
Lemma keeps_bind {A B} (m : M A) (k : A -> M B) :
  keeps R m -> (forall a, keeps R (k a)) -> keeps R (bind m k).
Proof.
  intros Hm Hk w. unfold bind. specialize (Hm w).
  destruct (m w) as [[a|e] w1]; cbn [snd] in *; auto.
  eapply R_trans; [eassumption | apply Hk].
Qed.
Lemma keeps_try {A} (m : M A) (h : exn -> M A) :
  keeps R m -> (forall e, keeps R (h e)) -> keeps R (try_catch m h).
Proof.
  intros Hm Hh w. unfold try_catch. specialize (Hm w).
  destruct (m w) as [[a|e] w1]; cbn [snd] in *; auto.
  eapply R_trans; [eassumption | apply Hh].
Qed.

End Keeping.


(** The rules at [evolves], and the steps that touch the agent. *)
Lemma steady_ret {A} (a : A) : keeps evolves (ret a).
Proof. apply keeps_ret, evolves_refl. Qed.
Lemma steady_raise {A} e : keeps evolves (@raise A e).
Proof. apply keeps_raise, evolves_refl. Qed.
Lemma steady_lift {A} (r : res A) : keeps evolves (lift r).
Proof. apply keeps_lift, evolves_refl. Qed.
Lemma steady_get_world : keeps evolves get_world.
Proof. apply keeps_get_world, evolves_refl. Qed.
Lemma steady_bind {A B} (m : M A) (k : A -> M B) :
  keeps evolves m -> (forall a, keeps evolves (k a)) -> keeps evolves (bind m k).
Proof. apply keeps_bind, evolves_trans. Qed.
Lemma steady_try {A} (m : M A) (h : exn -> M A) :
  keeps evolves m -> (forall e, keeps evolves (h e)) ->
  keeps evolves (try_catch m h).
Proof. apply keeps_try, evolves_trans. Qed.

Lemma steady_next_tick : keeps evolves next_tick.
Proof.
  intros w. apply quiet_evolves.
  - repeat split; auto. now exists [].
  - exists []. split; [now rewrite app_nil_r | constructor].
  - cbn [next_tick snd tick with_tick]. lia.
Qed.

Lemma steady_emit ev : no_http ev = true -> keeps evolves (emit ev).
Proof.
  intros H w. apply quiet_evolves.
  - repeat split; auto. exists [ev]. split; [reflexivity|].
    cbn [forallb]. now rewrite H.
  - exists []. split; [now rewrite app_nil_r | constructor].
  - cbn. lia.
Qed.

Lemma steady_notify cb m : keeps evolves (notify cb m).
Proof. destruct cb; [now apply steady_emit | apply steady_ret]. Qed.

(** [_log_tool] adds one entry, cut at 300 characters on both sides. *)
Lemma steady_log_tool env tool inp out :
  is_known_tool tool = true -> keeps evolves (log_tool env tool inp out).
Proof.
  intros K w. apply quiet_evolves.
  - repeat split; auto. now exists [].
  - eexists. split; [reflexivity|]. constructor; [|constructor].
    split; [split; apply take_length | exact K].
  - cbv [log_tool bind next_tick modify]. cbn [snd tick with_tool_calls with_tick]. lia.
Qed.

Create HintDb steady.
#[local] Hint Resolve steady_ret steady_raise steady_lift steady_get_world
  steady_next_tick steady_emit steady_notify steady_log_tool : steady.

(** Follow the shape of a method: its binds, its [try] blocks, its
    branches; close the leaves with the lemmas on record. *)
Ltac steady :=
  repeat first
    [ solve [auto with steady]
    | apply steady_bind; [|intros ?]
    | apply steady_try; [|intros ?]
    | match goal with
      | |- keeps evolves (match ?x with _ => _ end) => destruct x
      | |- keeps evolves (if ?x then _ else _) => destruct x
      end ].

(** The primary search falls through before anything is sent or logged. *)
Lemma steady_google_cse env q k : keeps evolves (google_cse env q k).
Proof. intros w. rewrite google_cse_falls_through. apply evolves_refl. Qed.

Lemma steady_duckduckgo env q k : keeps evolves (duckduckgo env q k).
Proof. unfold duckduckgo, ddgs_search. steady. Qed.

#[local] Hint Resolve steady_google_cse steady_duckduckgo : steady.

Lemma steady_search_web env q k : keeps evolves (search_web env q k).
Proof. unfold search_web. steady. Qed.

Lemma steady_safe_generate_text env p mt :
  keeps evolves (safe_generate_text env p mt).
Proof. unfold safe_generate_text, model_generate. steady. Qed.

#[local] Hint Resolve steady_search_web steady_safe_generate_text : steady.

Lemma steady_detect_ticker env company : keeps evolves (detect_ticker env company).
Proof. unfold detect_ticker. steady. Qed.

Lemma steady_yfinance_snapshot env ticker :
  keeps evolves (yfinance_snapshot env ticker).
Proof. unfold yfinance_snapshot, yf_lookup. steady. Qed.

#[local] Hint Resolve steady_detect_ticker steady_yfinance_snapshot : steady.

Lemma steady_fetch_financials env company :
  keeps evolves (fetch_financials env company).
Proof. unfold fetch_financials. steady. Qed.

Lemma steady_classify_intent env user_text :
  keeps evolves (classify_intent env user_text).
Proof. unfold classify_intent. steady. Qed.

#[local] Hint Resolve steady_fetch_financials steady_classify_intent : steady.

(** *** Writes to the Memory Store *)

Lemma plan_ok_fresh report json_data : plan_ok (fresh_plan report json_data).
Proof. exists report, report, json_data. repeat split. Qed.

Lemma plan_ok_set_json j plan : plan_ok plan -> plan_ok (Dict.set "json" j plan).
Proof.
  intros (t & o & j0 & Ht & Ho & Hj). exists t, o, j.
  rewrite !get_set_other by discriminate. rewrite get_set_same. auto.
Qed.

Lemma plan_ok_set_text t plan :
  plan_ok plan -> plan_ok (Dict.set "text" (JStr t) plan).
Proof.
  intros (t0 & o & j & Ht & Ho & Hj). exists t, o, j.
  rewrite get_set_same. rewrite !get_set_other by discriminate. auto.
Qed.

Lemma memory_ok_get m k plan :
  memory_ok m -> Dict.get k m = Some plan -> plan_ok plan.
Proof.
  unfold memory_ok. induction m as [|[k' p] r IH]; cbn [Dict.get]; [discriminate|].
  intros F E. apply Forall_cons_iff in F as [Hp Hr].
  destruct (String.eqb k k'); [|auto].
  injection E as <-. exact Hp.
Qed.

Lemma memory_ok_set m k plan :
  memory_ok m -> plan_ok plan -> memory_ok (Dict.set k plan m).
Proof.
  unfold memory_ok. intros F P. induction m as [|[k' p] r IH]; cbn [Dict.set].
  - repeat constructor. exact P.
  - apply Forall_cons_iff in F as [Hp Hr].
    destruct (String.eqb k k'); constructor; auto.
Qed.

Lemma keys_set_extends {V} k (v : V) d :
  exists ks, Dict.keys (Dict.set k v d) = Dict.keys d ++ ks.
Proof.
  destruct (Dict.mem k d) eqn:E.
  - exists []. rewrite app_nil_r. now apply keys_set_present.
  - exists [k]. now apply keys_set_absent.
Qed.

(** Storing a plan that is well formed, when the store is, evolves. *)
Lemma store_evolves c plan w :
  (memory_ok (company_memory w) -> plan_ok plan) ->
  evolves w (with_memory (Dict.set c plan (company_memory w)) w).
Proof.
  intros P. repeat split; auto.
  - exists []. split; [now rewrite app_nil_r | constructor].
  - apply keys_set_extends.
  - intros F. apply memory_ok_set; auto.
  - exists []. split; reflexivity.
Qed.

Lemma steady_store_fresh c report json_data :
  keeps evolves
    (modify (fun w => with_memory
                        (Dict.set c (fresh_plan report json_data)
                                  (company_memory w)) w)).
Proof. intros w. apply store_evolves. intros _. apply plan_ok_fresh. Qed.

#[local] Hint Resolve steady_store_fresh : steady.

Lemma steady_perform_deep_research env c cb :
  keeps evolves (perform_deep_research env c cb).
Proof. unfold perform_deep_research. steady. Qed.

Lemma steady_answer_followup env company question :
  keeps evolves (answer_followup env company question).
Proof. unfold answer_followup. steady. Qed.

#[local] Hint Resolve steady_perform_deep_research steady_answer_followup : steady.

Lemma steady_compare_loop env companies :
  forall data_points, keeps evolves (compare_loop env companies data_points).
Proof.
  induction companies as [|c rest IH]; intros dp; cbn [compare_loop]; steady.
Qed.

#[local] Hint Resolve steady_compare_loop : steady.

Lemma steady_compare_companies env companies cb :
  keeps evolves (compare_companies env companies cb).
Proof. unfold compare_companies. steady. Qed.

#[local] Hint Resolve steady_compare_companies : steady.

(** [ask] records the utterance, and from there on evolves. *)
Lemma ask_evolves env user_text cb w :
  evolves (with_chat (chat_history w ++ [mkChat "user" user_text]) w)
          (snd (ask env user_text cb w)).
Proof.
  unfold ask.
  rewrite (bind_ok _ _ w tt
             (with_chat (chat_history w ++ [mkChat "user" user_text]) w))
    by reflexivity.
  generalize (with_chat (chat_history w ++ [mkChat "user" user_text]) w).
  change (keeps evolves
    (notify cb DetectingIntent ;;;
     intent_data <- classify_intent env user_text ;;
     intent <- lift (py_get "intent" (JStr "research") intent_data) ;;
     companies <- lift (py_get "companies" (JArr []) intent_data) ;;
     if eq_str intent "off_topic" then ret off_topic_reply
     else if eq_str intent "greeting" then ret greeting_reply
     else
       comparing <- (if eq_str intent "compare" then
                       match py_len companies with
                       | Some n => ret (2 <=? n)
                       | None => raise (TypeError "object has no len()")
                       end
                     else ret false) ;;
       if comparing then
         names <- lift (company_names companies) ;;
         compare_companies env names cb
       else
         company <- (if truthy companies then lift (first_item companies)
                     else ret (JStr user_text)) ;;
         w <- get_world ;;
         if eq_str intent "follow_up" && negb (Dict.is_empty (company_memory w)) then
           match Dict.last_key (company_memory w) with
           | Some company => answer_followup env company user_text
           | None => raise (TypeError "list index out of range")
           end
         else
           company <- lift (as_text company) ;;
           perform_deep_research env company cb)).
  steady.
Qed.

(** The editor, on a plan whose [json] takes the assignment: the agent it
    leaves, in full. *)
Lemma update_company_section_world env company section new_val w plan old new_json :
  Dict.get company (company_memory w) = Some plan ->
  Dict.get "json" plan = Some old ->
  set_section section new_val old = Ok new_json ->
  exists new_text,
    update_company_section env company section new_val w
    = (Ok success_reply,
       with_memory
         (Dict.set company
            (Dict.set "text" (JStr new_text) (Dict.set "json" new_json plan))
            (Dict.set company (Dict.set "json" new_json plan) (company_memory w)))
         (with_trace (EvLlm (RewritePrompt section new_json) 8000 new_text :: trace w)
            (with_tick (S (tick w)) w))).
Proof.
  intros Hc Hj Hs. unfold update_company_section.
  rewrite (bind_ok _ _ w w w) by reflexivity. rewrite Hc.
  destruct plan as [|kv plan']; [discriminate|].
  rewrite Hj. rewrite (bind_ok _ _ w old w) by reflexivity.
  rewrite (bind_ok _ _ w new_json w) by (unfold lift; now rewrite Hs).
  set (plan1 := Dict.set "json" new_json (kv :: plan')).
  set (w1 := with_memory (Dict.set company plan1 (company_memory w)) w).
  rewrite (bind_ok _ _ w tt w1) by reflexivity.
  destruct (safe_generate_text_run env (RewritePrompt section new_json) 8000 w1)
    as (new_text & E).
  rewrite (bind_ok _ _ _ _ _ E).
  exists new_text. reflexivity.
Qed.

(** What the editor does when it does not get that far: nothing. *)
Lemma update_company_section_stops env company section new_val w :
  (Dict.get company (company_memory w) = None
   \/ Dict.get company (company_memory w) = Some []
   \/ exists plan, Dict.get company (company_memory w) = Some plan
        /\ (Dict.get "json" plan = None
            \/ exists old e, Dict.get "json" plan = Some old
                 /\ set_section section new_val old = Raise e)) ->
  snd (update_company_section env company section new_val w) = w.
Proof.
  unfold update_company_section.
  rewrite (bind_ok _ _ w w w) by reflexivity.
  intros [H | [H | (plan & H & [Hj | (old & e & Hj & Hs)])]]; rewrite H; auto.
  - destruct plan; auto. now rewrite Hj.
  - destruct plan; auto. rewrite Hj.
    rewrite (bind_ok _ _ w old w) by reflexivity.
    unfold bind, lift. now rewrite Hs.
Qed.

Lemma update_evolves env company section new_val w :
  evolves w (snd (update_company_section env company section new_val w)).
Proof.
  destruct (Dict.get company (company_memory w)) as [plan|] eqn:Hc.
  2:{ rewrite update_company_section_stops by auto. apply evolves_refl. }
  destruct (Dict.get "json" plan) as [old|] eqn:Hj.
  2:{ rewrite update_company_section_stops by eauto 6. apply evolves_refl. }
  destruct (set_section section new_val old) as [new_json|e] eqn:Hs.
  2:{ rewrite update_company_section_stops by eauto 10. apply evolves_refl. }
  destruct (update_company_section_world env _ _ _ _ _ _ _ Hc Hj Hs)
    as (new_text & E).
  rewrite E. cbn [snd].
  repeat split; auto.
  - exists []. split; [now rewrite app_nil_r | constructor].
  - cbn [company_memory with_memory]. exists [].
    rewrite app_nil_r, !keys_set_present; auto.
    + unfold Dict.mem. now rewrite Hc.
    + apply mem_set_same.
  - cbn [company_memory with_memory]. intros F.
    pose proof (memory_ok_get _ _ _ F Hc) as P.
    apply memory_ok_set; [apply memory_ok_set; auto|].
    + now apply plan_ok_set_json.
    + now apply plan_ok_set_text, plan_ok_set_json.
  - cbn [trace with_memory with_trace]. eexists [_]. split; reflexivity.
  - cbn. lia.
Qed.

(** *** Any series of calls *)

Lemma evolves_with_chat l w w' :
  evolves w w' ->
  evolves (with_chat (chat_history w ++ l) w) (with_chat (chat_history w' ++ l) w').
Proof.
  intros (A1 & A2 & A3 & A4 & A5 & A6 & A7 & A8).
  repeat split; auto. cbn. now rewrite A3.
Qed.

Lemma with_chat_same w : with_chat (chat_history w ++ []) w = w.
Proof. destruct w. unfold with_chat. cbn. now rewrite app_nil_r. Qed.

Lemma run_call_evolves env c w :
  evolves (with_chat (chat_history w ++ asked [c]) w) (run_call env c w).
Proof.
  destruct c; cbn [asked run_call]; try rewrite with_chat_same.
  - apply ask_evolves.
  - apply steady_perform_deep_research.
  - apply steady_answer_followup.
  - apply steady_compare_companies.
  - apply update_evolves.
Qed.

Lemma asked_cons c rest : asked (c :: rest) = asked [c] ++ asked rest.
Proof. destruct c; reflexivity. Qed.

Lemma run_calls_evolves env calls : forall w,
  evolves (with_chat (chat_history w ++ asked calls) w) (run_calls env calls w).
Proof.
  induction calls as [|c rest IH]; intros w.
  - cbn [asked run_calls]. rewrite with_chat_same. apply evolves_refl.
  - cbn [run_calls]. rewrite asked_cons.
    eapply evolves_trans; [|apply IH].
    pose proof (evolves_with_chat (asked rest) _ _ (run_call_evolves env c w)) as H.
    cbn [chat_history with_chat] in H. rewrite <- app_assoc in H.
    destruct w. exact H.
Qed.

(* ================================================================== *)
(** ** Properties of the agent over any series of calls *)
(* ================================================================== *)

(** X1. The tool log is append-only and bounded: over any series of calls
    to the agent, returning or raising, the log keeps the entries it had, in
    place, and every entry added has an input and an output of at most 300
    characters. *)
Theorem tool_log_only_grows env calls w :
  exists new,
    tool_calls (run_calls env calls w) = tool_calls w ++ new
    /\ Forall bounded_call new.
Proof.
  destruct (run_calls_evolves env calls w) as (_ & _ & _ & (new & L & F) & _).
  exists new. split; [exact L|].
  eapply Forall_impl; [|exact F]. intros c [B _]. exact B.
Qed.

(** X2. The chat history of the agent holds the utterances handed to [ask],
    one "user" message each, in the order of the calls, whatever the calls
    did and whether they returned or raised; no other method writes to it,
    and [ask] never records an answer. *)
Theorem chat_history_is_what_was_asked env calls w :
  chat_history (run_calls env calls w) = chat_history w ++ asked calls.
Proof.
  destruct (run_calls_evolves env calls w) as (_ & _ & C & _). exact C.
Qed.

(** X3. No call removes or moves a company of the Memory Store: the keys it
    had stay where they were, new ones come after them. *)
Theorem memory_store_keys_only_grow env calls w :
  exists ks,
    Dict.keys (company_memory (run_calls env calls w))
    = Dict.keys (company_memory w) ++ ks.
Proof.
  destruct (run_calls_evolves env calls w) as (_ & _ & _ & _ & K & _). exact K.
Qed.

(** X4. From the creation of the agent on, and over any series of calls,
    every plan in the Memory Store has the keys [text], [original_text] and
    [json], the first two holding text; and the credentials stay the ones
    given at creation. *)
Theorem plans_are_well_formed env genai_api_key google_api_key cse_id w0 calls :
  init genai_api_key google_api_key cse_id = Some w0 ->
  let w := run_calls env calls w0 in
  memory_ok (company_memory w)
  /\ Agent.google_api_key w = google_api_key
  /\ Agent.cse_id w = cse_id.
Proof.
  unfold init. destruct (configured genai_api_key); [|discriminate].
  intros E. injection E as <-. cbv zeta.
  destruct (run_calls_evolves env calls
              (mkWorld google_api_key cse_id [] [] [] 0 []))
    as (A1 & A2 & _ & _ & _ & Mo & _).
  repeat split; auto. apply Mo. constructor.
Qed.

Lemma known_tool_names tool :
  is_known_tool tool = true ->
  tool = "DuckDuckGo" \/ tool = "Search Error" \/ tool = "YFinance".
Proof.
  unfold is_known_tool. intros H.
  apply orb_prop in H as [H|H]; [apply orb_prop in H as [H|H]|];
    apply String.eqb_eq in H; auto.
Qed.

(** X5. Whatever the credentials, no call to the agent sends an HTTP
    request, and no "Google Search" entry ever enters the tool log: over any
    series of calls the entries added are those of the fallback search,
    "DuckDuckGo" and "Search Error", and of the market data, "YFinance". *)
Theorem primary_search_never_runs env calls w :
  exists new evs,
    tool_calls (run_calls env calls w) = tool_calls w ++ new
    /\ Forall (fun c => tool c = "DuckDuckGo" \/ tool c = "Search Error"
                        \/ tool c = "YFinance") new
    /\ trace (run_calls env calls w) = evs ++ trace w
    /\ Forall (fun e => forall url q num, e <> EvHttpGet url q num) evs.
Proof.
  destruct (run_calls_evolves env calls w)
    as (_ & _ & _ & (new & L & F) & _ & _ & (evs & T & H) & _).
  exists new, evs. split; [exact L|]. split; [|split; [exact T|]].
  - eapply Forall_impl; [|exact F]. intros c [_ K]. now apply known_tool_names.
  - apply Forall_forall. intros e I url q num ->.
    rewrite forallb_forall in H. specialize (H _ I). discriminate H.
Qed.

(** *** The chat tab *)

Lemma ask_chat_history env user_text cb w :
  chat_history (snd (ask env user_text cb w))
  = chat_history w ++ [mkChat "user" user_text].
Proof. destruct (ask_evolves env user_text cb w) as (_ & _ & C & _). exact C. Qed.

Lemma chat_turn_in_step env user_input st :
  filter App.from_user (fst st) = chat_history (snd st) ->
  filter App.from_user (fst (App.chat_turn env user_input st))
  = chat_history (snd (App.chat_turn env user_input st)).
Proof.
  intros H. unfold App.chat_turn.
  destruct (truthy (JStr user_input)); [|exact H].
  pose proof (ask_chat_history env user_input true (snd st)) as C.
  destruct (ask env user_input true (snd st)) as [[response|e] w'];
    cbn [fst snd] in *; rewrite C, !filter_app, H; cbn [filter App.from_user role];
    cbn; now rewrite ?app_nil_r.
Qed.

(** X6. The chat tab keeps a history of its own next to the agent's.  Over
    any series of inputs the two stay in step: the user messages of the
    session history are exactly the chat history of the agent, in the same
    order.  Answers are kept by the session only. *)
Theorem session_history_in_step env inputs st :
  filter App.from_user (fst st) = chat_history (snd st) ->
  filter App.from_user (fst (App.chat_turns env inputs st))
  = chat_history (snd (App.chat_turns env inputs st)).
Proof.
  revert st. induction inputs as [|i rest IH]; intros st H; cbn [App.chat_turns].
  - exact H.
  - apply IH. now apply chat_turn_in_step.
Qed.

(* ================================================================== *)
(** ** Cleaning the answers of the model *)
(* ================================================================== *)

(** *** [strip] *)

Lemma lstrip_head s c r : Text.lstrip s = String c r -> Text.is_space c = false.
Proof.
  induction s as [|a s IH]; cbn [Text.lstrip]; [discriminate|].
  destruct (Text.is_space a) eqn:E; auto.
  intros H. injection H as <- _. exact E.
Qed.

Lemma lstrip_fixed c r : Text.is_space c = false -> Text.lstrip (String c r) = String c r.
Proof. intros E. cbn [Text.lstrip]. now rewrite E. Qed.

Lemma rstrip_head c r :
  Text.is_space c = false -> exists r', Text.rstrip (String c r) = String c r'.
Proof.
  intros E. cbn [Text.rstrip]. destruct (Text.rstrip r); [rewrite E|]; eauto.
Qed.

Lemma rstrip_idem s : Text.rstrip (Text.rstrip s) = Text.rstrip s.
Proof.
  induction s as [|c r IH]; auto.
  cbn [Text.rstrip]. destruct (Text.rstrip r) as [|a x] eqn:E.
  - destruct (Text.is_space c) eqn:Es; auto.
    cbn [Text.rstrip]. now rewrite Es.
  - cbn [Text.rstrip] in *. now rewrite IH.
Qed.

Lemma strip_idem s : Text.strip (Text.strip s) = Text.strip s.
Proof.
  unfold Text.strip. destruct (Text.lstrip s) as [|c r] eqn:E; auto.
  apply lstrip_head in E.
  destruct (rstrip_head c r E) as (r' & Er). rewrite Er.
  rewrite lstrip_fixed by auto. rewrite <- Er. apply rstrip_idem.
Qed.

(** *** Occurrences *)

Lemma contains_cons sub c s :
  Text.contains sub s = true -> Text.contains sub (String c s) = true.
Proof.
  unfold Text.contains. cbn [Text.find].
  destruct (prefix sub (String c s)); auto.
  destruct (Text.find sub s); [auto | discriminate].
Qed.

Lemma prefix_trans a : forall b c,
  prefix a b = true -> prefix b c = true -> prefix a c = true.
Proof.
  induction a as [|x a IH]; intros b c; [now destruct c|].
  destruct b as [|y b]; [discriminate|]. destruct c as [|z c]; [discriminate|].
  cbn [prefix]. destruct (ascii_dec x y); [|discriminate].
  destruct (ascii_dec y z); [|discriminate]. subst.
  destruct (ascii_dec z z); [|congruence]. apply IH.
Qed.

Lemma prefix_nil s : prefix EmptyString s = true.
Proof. now destruct s. Qed.

(** What occurs in a prefix of a text occurs in the text. *)
Lemma contains_prefix sub p : forall s,
  prefix p s = true -> Text.contains sub p = true -> Text.contains sub s = true.
Proof.
  unfold Text.contains. induction p as [|c p IH]; intros s P H.
  - cbn [Text.find] in H. destruct (prefix sub EmptyString) eqn:E; [|discriminate].
    destruct sub; [|discriminate].
    destruct s; cbn [Text.find]; now rewrite ?prefix_nil.
  - destruct s as [|d s]; [discriminate|].
    cbn [prefix] in P. destruct (ascii_dec c d); [subst d | discriminate].
    cbn [Text.find] in *.
    destruct (prefix sub (String c p)) eqn:E.
    + erewrite prefix_trans; eauto. cbn [prefix].
      destruct (ascii_dec c c); [auto | congruence].
    + destruct (prefix sub (String c s)); auto.
      specialize (IH s P). destruct (Text.find sub p); [|discriminate].
      destruct (Text.find sub s); [auto | now specialize (IH eq_refl)].
Qed.

Lemma rstrip_prefix s : prefix (Text.rstrip s) s = true.
Proof.
  induction s as [|c r IH]; auto.
  cbn [Text.rstrip]. destruct (Text.rstrip r) as [|a x].
  - destruct (Text.is_space c); cbn [prefix]; auto.
    destruct (ascii_dec c c); [apply prefix_nil | congruence].
  - cbn [prefix] in *. destruct (ascii_dec c c); [auto | congruence].
Qed.

Lemma contains_lstrip sub s :
  Text.contains sub (Text.lstrip s) = true -> Text.contains sub s = true.
Proof.
  induction s as [|c r IH]; cbn [Text.lstrip]; auto.
  destruct (Text.is_space c); auto. intros H. apply contains_cons. auto.
Qed.

(** [strip] adds no occurrence. *)
Lemma contains_strip sub s :
  Text.contains sub s = false -> Text.contains sub (Text.strip s) = false.
Proof.
  intros H. destruct (Text.contains sub (Text.strip s)) eqn:E; auto.
  unfold Text.strip in E.
  apply (contains_prefix _ _ _ (rstrip_prefix _)) in E.
  apply contains_lstrip in E. congruence.
Qed.

(** *** Fences *)

Lemma prefix_cons a p b s :
  prefix (String a p) (String b s) = if ascii_dec a b then prefix p s else false.
Proof. reflexivity. Qed.

Lemma prefix_of_nil a p : prefix (String a p) EmptyString = false.
Proof. reflexivity. Qed.

(** Decide the comparisons of characters a goal about [prefix] hinges on. *)
Ltac by_prefix :=
  repeat (rewrite ?prefix_cons, ?prefix_nil, ?prefix_of_nil in *;
          match goal with
          | |- context [ascii_dec ?a ?b] => destruct (ascii_dec a b); subst
          | H : context [ascii_dec ?a ?b] |- _ => destruct (ascii_dec a b); subst
          end);
  rewrite ?prefix_cons, ?prefix_nil, ?prefix_of_nil in *;
  try congruence; try discriminate; auto.

Lemma replace_fence_step c r :
  Text.replace "```" EmptyString (String c r)
  = if prefix "```" (String c r)
    then Text.replace "```" EmptyString (Text.drop 2 r)
    else String c (Text.replace "```" EmptyString r).
Proof.
  unfold Text.replace. cbn [Text.replace_from].
  destruct (prefix "```" (String c r)) eqn:P; [|reflexivity].
  destruct r as [|a [|b r2]]; by_prefix.
Qed.

Lemma replace_fence_no_tick s :
  prefix "`" s = false -> prefix "`" (Text.replace "```" EmptyString s) = false.
Proof.
  destruct s as [|c r]; [reflexivity|]. intros P.
  rewrite replace_fence_step.
  assert (P3 : prefix "```" (String c r) = false) by by_prefix.
  rewrite P3. by_prefix.
Qed.

Lemma prefix_app_true a : forall b s,
  prefix (a +++ b) s = true -> prefix a s = true.
Proof.
  induction a as [|x a IH]; intros b s H; [apply prefix_nil|].
  destruct s as [|y s]; [discriminate H|].
  cbn [String.append] in H. rewrite prefix_cons in *.
  destruct (ascii_dec x y); [eauto | discriminate H].
Qed.

Lemma prefix_app_false a b s : prefix a s = false -> prefix (a +++ b) s = false.
Proof.
  intros H. destruct (prefix (a +++ b) s) eqn:E; auto.
  apply prefix_app_true in E. congruence.
Qed.

Lemma no_fence_upto n : forall s,
  String.length s <= n ->
  Text.contains "```" (Text.replace "```" EmptyString s) = false.
Proof.
  induction n as [|n IH]; intros s L.
  { destruct s; [reflexivity | cbn in L; lia]. }
  destruct s as [|c r]; [reflexivity|]. cbn [String.length] in L.
  rewrite replace_fence_step.
  destruct (prefix "```" (String c r)) eqn:P.
  - apply IH. assert (String.length (Text.drop 2 r) <= String.length r).
    { clear. destruct r as [|a [|b r]]; cbn; lia. }
    lia.
  - assert (T : prefix "```" (String c (Text.replace "```" EmptyString r)) = false).
    { rewrite prefix_cons in *.
      destruct (ascii_dec "`"%char c); [|reflexivity].
      destruct r as [|a r1]; [reflexivity|].
      rewrite replace_fence_step.
      assert (P3 : prefix "```" (String a r1) = false)
        by exact (prefix_app_false "``" "`" _ P).
      rewrite P3.
      rewrite prefix_cons in *.
      destruct (ascii_dec "`"%char a); [|reflexivity].
      now apply replace_fence_no_tick. }
    unfold Text.contains. cbn [Text.find]. rewrite T.
    specialize (IH r ltac:(lia)). unfold Text.contains in IH.
    destruct (Text.find "```" (Text.replace "```" EmptyString r)); [discriminate|].
    reflexivity.
Qed.

(** Once the fences are replaced by nothing, no fence is left. *)
Lemma no_fence_after_replace s :
  Text.contains "```" (Text.replace "```" EmptyString s) = false.
Proof. apply (no_fence_upto (String.length s)). lia. Qed.

(** X7. What [clean_json_string] returns holds no Markdown fence and no
    white space at either end, and cleaning it again changes nothing. *)
Theorem clean_json_string_is_clean s :
  let r := clean_json_string s in
  Text.contains "```" r = false
  /\ Text.strip r = r
  /\ clean_json_string r = r.
Proof.
  assert (F : Text.contains "```" (clean_json_string s) = false).
  { unfold clean_json_string. apply contains_strip.
    destruct (Text.contains "```json" s); [apply no_fence_after_replace|].
    destruct (Text.contains "```" s) eqn:E; [apply no_fence_after_replace | exact E]. }
  assert (S : Text.strip (clean_json_string s) = clean_json_string s).
  { unfold clean_json_string. apply strip_idem. }
  cbv zeta. repeat split; auto.
  assert (J : Text.contains "```json" (clean_json_string s) = false).
  { destruct (Text.contains "```json" (clean_json_string s)) eqn:E; auto.
    rewrite <- F. symmetry. revert E. generalize (clean_json_string s).
    intros x. unfold Text.contains.
    induction x as [|c x IH]; cbn [Text.find].
    - discriminate.
    - destruct (prefix "```json" (String c x)) eqn:P.
      + intros _. erewrite (prefix_trans "```" "```json"); eauto.
      + destruct (prefix "```" (String c x)); auto.
        destruct (Text.find "```json" x); [|discriminate].
        intros _. specialize (IH eq_refl).
        destruct (Text.find "```" x); [auto | discriminate]. }
  unfold clean_json_string at 1. rewrite J, F. exact S.
Qed.

(** *** Commentary around the object *)













(* ================================================================== *)
(** ** The adapters *)
(* ================================================================== *)

(** X9. [safe_generate_text] never raises and touches nothing but the
    clock and the trace.  A model call that raises, or a response whose
    [text] property raises, comes back as the text "Error generating
    content: " followed by the message; a response with a non-empty [text]
    comes back stripped; one with neither text nor candidates comes back
    as the empty text. *)
Theorem safe_generate_text_never_raises env p max_tokens w :
  exists out,
    safe_generate_text env p max_tokens w
    = (Ok out, with_trace (EvLlm p max_tokens out :: trace w)
                          (with_tick (S (tick w)) w))
    /\ match generate_content env (tick w) p max_tokens with
       | GenRaises msg => out = "Error generating content: " +++ msg
       | GenReturns resp =>
           match resp_text resp, resp_candidates resp with
           | TextRaises msg, _ => out = "Error generating content: " +++ msg
           | TextIs (String c s), _ => out = Text.strip (String c s)
           | _, Some (parts :: _) =>
               out = Text.strip (String.concat EmptyString parts)
           | _, _ => out = EmptyString
           end
       end.
Proof.
  cbv [safe_generate_text bind try_catch model_generate next_tick
       emit modify ret raise].
  destruct (generate_content env (tick w) p max_tokens) as [msg|resp].
  - eexists; split; reflexivity.
  - destruct (resp_text resp) as [|[|c s]|msg].
    + destruct (resp_candidates resp) as [[|parts cs]|]; eexists; split; reflexivity.
    + destruct (resp_candidates resp) as [[|parts cs]|]; eexists; split; reflexivity.
    + eexists; split; reflexivity.
    + eexists; split; reflexivity.
Qed.

Lemma ddgs_item_keys r h :
  ddgs_item r = Ok h -> Dict.keys h = ["title"; "link"; "snippet"].
Proof.
  unfold ddgs_item.
  destruct (Dict.get "title" r); [|discriminate].
  destruct (Dict.get "href" r); [|discriminate].
  destruct (Dict.get "body" r); [|discriminate].
  intros E. injection E as <-. reflexivity.
Qed.

Lemma mapM_keys {A} (f : A -> res (dict json)) ks l : forall rs,
  (forall a h, f a = Ok h -> Dict.keys h = ks) ->
  mapM f l = Ok rs -> Forall (fun h => Dict.keys h = ks) rs.
Proof.
  induction l as [|a l IH]; cbn [mapM]; intros rs H E.
  - injection E as <-. constructor.
  - destruct (f a) as [h|] eqn:Eh; [|discriminate].
    destruct (mapM f l) as [hs|]; [|discriminate].
    injection E as <-. constructor; eauto.
Qed.

Lemma google_item_keys i h :
  google_item i = Ok h -> Dict.keys h = ["title"; "link"; "snippet"].
Proof.
  destruct i; try discriminate. intros E. injection E as <-. reflexivity.
Qed.

(** Both providers are mapped to the same shape. *)
Lemma results_shape :
  (forall data rs, google_results data = Ok rs ->
     Forall (fun h => Dict.keys h = ["title"; "link"; "snippet"]) rs)
  /\ (forall hits rs, mapM ddgs_item hits = Ok rs ->
     Forall (fun h => Dict.keys h = ["title"; "link"; "snippet"]) rs).
Proof.
  split.
  - intros data rs. unfold google_results. destruct data; try discriminate.
    destruct (iterate _); [|discriminate].
    apply mapM_keys, google_item_keys.
  - intros hits rs. apply mapM_keys, ddgs_item_keys.
Qed.

(** X10. [search_web] never raises, leaves the Memory Store alone, and every
    result it returns has exactly the keys [title], [link], [snippet].
    With the fallback provider available it adds one entry to the tool log,
    for the query cut at 300 characters: "DuckDuckGo" with the number of
    results returned, or "Search Error" when the provider or the mapping
    raised, the result then being empty.  Without it, nothing is logged and
    the result is empty. *)
Theorem search_web_results_and_log env query top_k w :
  exists rs w',
    search_web env query top_k w = (Ok rs, w')
    /\ Forall (fun h => Dict.keys h = ["title"; "link"; "snippet"]) rs
    /\ company_memory w' = company_memory w
    /\ if ddgs_imported env then
         exists entry,
           tool_calls w' = tool_calls w ++ [entry]
           /\ input entry = Text.take 300 query
           /\ ((tool entry = "DuckDuckGo"
                /\ output entry
                   = Text.take 300 ("Found " +++ Text.str_of_nat (List.length rs)))
               \/ (tool entry = "Search Error" /\ rs = []))
       else tool_calls w' = tool_calls w /\ rs = [].
Proof.
  rewrite search_web_is_fallback. unfold duckduckgo.
  destruct (ddgs_imported env).
  - cbv [try_catch bind ddgs_search next_tick emit modify lift ret raise log_tool].
    destruct (ddgs_text env (tick w) query top_k) as [msg|hits].
    + eexists _, _. split; [reflexivity|]. split; [constructor|].
      split; [reflexivity|]. eexists. split; [reflexivity|]. split; [reflexivity|].
      right. split; reflexivity.
    + destruct (mapM ddgs_item hits) as [rs|e] eqn:E.
      * eexists _, _. split; [reflexivity|].
        split; [apply (proj2 results_shape _ _ E)|].
        split; [reflexivity|]. eexists. split; [reflexivity|].
        split; [reflexivity|]. left. split; reflexivity.
      * eexists _, _. split; [reflexivity|]. split; [constructor|].
        split; [reflexivity|]. eexists. split; [reflexivity|].
        split; [reflexivity|]. right. split; reflexivity.
  - exists [], w. repeat split; auto.
Qed.

Lemma slice500_bound v s : slice500 v = Ok (JStr s) -> String.length s <= 500.
Proof.
  destruct v; cbn [slice500]; intros E; try discriminate E.
  assert (s = Text.take 500 s0) as -> by congruence.
  apply take_length.
Qed.

Ltac snapshot_error :=
  eexists _, _; split; [reflexivity|]; repeat split; [left; eauto|];
  cbn; intros ? H; discriminate H.

Ltac snapshot_info tk :=
  destruct (truthy (JObj (info tk)) && Dict.mem "regularMarketPrice" (info tk));
  [ let Es := fresh "Es" in
    destruct (slice500 (get_or "longBusinessSummary" (JStr EmptyString) (info tk)))
      as [summary|e] eqn:Es;
    [ eexists _, _; split; [reflexivity|]; repeat split;
      [ right; repeat split; eexists; repeat split
      | cbn; intros ? H; injection H as ->; eapply slice500_bound, Es ]
    | snapshot_error ]
  | snapshot_error ].

(** The market-data step, by what it returns. *)
Lemma yfinance_snapshot_result env ticker w :
  exists d w',
    yfinance_snapshot env ticker w = (Ok d, w')
    /\ company_memory w' = company_memory w
    /\ trace w' = EvYf ticker :: trace w
    /\ ((exists msg, d = [("error", JStr msg)] /\ tool_calls w' = tool_calls w)
        \/ (Dict.get "symbol" d = Some (JStr ticker)
            /\ Dict.get "error" d = None
            /\ exists entry,
                 tool_calls w' = tool_calls w ++ [entry]
                 /\ tool entry = "YFinance"
                 /\ input entry = Text.take 300 ticker
                 /\ output entry = "Success"))
    /\ (forall s, Dict.get "summary" d = Some (JStr s) -> String.length s <= 500).
Proof.
  cbv [yfinance_snapshot try_catch bind yf_lookup next_tick emit modify lift
       ret raise log_tool].
  destruct (yf_ticker env (tick w) ticker) as [msg|tk]; [snapshot_error|].
  destruct (fast_info tk) as [fi|]; [|snapshot_info tk].
  destruct (truthy (last_price fi)); [|snapshot_info tk].
  eexists _, _. split; [reflexivity|]. repeat split.
  - right. repeat split. eexists. repeat split.
  - cbn. intros s H. discriminate H.
Qed.

(** *** The ticker pattern *)

Lemma letters_then_boundary_shape k s m :
  Text.letters_then_boundary k s = Some m ->
  String.length m = k /\ Text.all_upper m = true.
Proof.
  unfold Text.letters_then_boundary.
  destruct (String.length (Text.take k s) =? k) eqn:L; [|discriminate].
  destruct (Text.all_upper (Text.take k s)) eqn:U; [|discriminate].
  destruct (Text.boundary _ _); [|discriminate].
  cbn [andb]. intros E. injection E as <-. split; [now apply Nat.eqb_eq | exact U].
Qed.

Lemma greedy_letters_shape k s m :
  Text.greedy_letters k s = Some m ->
  1 <= String.length m <= k /\ Text.all_upper m = true.
Proof.
  induction k as [|k IH]; [discriminate|].
  cbn [Text.greedy_letters].
  destruct (Text.letters_then_boundary (S k) s) as [m'|] eqn:E.
  - intros H. injection H as ->.
    destruct (letters_then_boundary_shape _ _ _ E) as [L U]. split; [lia | exact U].
  - intros H. destruct (IH H) as [L U]. split; [lia | exact U].
Qed.

Lemma search_from_shape prev s m :
  Text.search_from prev s = Some m ->
  1 <= String.length m <= 5 /\ Text.all_upper m = true.
Proof.
  revert prev. induction s as [|c r IH]; intros prev; cbn [Text.search_from];
    unfold Text.match_here.
  - destruct (Text.boundary prev EmptyString); [|discriminate].
    destruct (Text.greedy_letters 5 EmptyString) eqn:G; [|discriminate].
    intros H. injection H as ->. eapply greedy_letters_shape, G.
  - destruct (if Text.boundary prev (String c r)
              then Text.greedy_letters 5 (String c r) else None) as [m'|] eqn:G.
    + intros H. injection H as ->.
      destruct (Text.boundary prev (String c r)); [|discriminate].
      eapply greedy_letters_shape, G.
    + apply IH.
Qed.

Lemma take_all n s : String.length s <= n -> Text.take n s = s.
Proof.
  revert n. induction s as [|c r IH]; intros [|n]; cbn [Text.take String.length];
    intros L; try reflexivity; try lia.
  f_equal. apply IH. lia.
Qed.

(** The search behind the ticker detection: what it logs is no market-data
    entry, and it asks no market data. *)
Lemma search_web_log env q k w :
  exists rs w' new evs,
    search_web env q k w = (Ok rs, w')
    /\ text_titles rs
    /\ company_memory w' = company_memory w
    /\ tool_calls w' = tool_calls w ++ new
    /\ Forall (fun c => tool c <> "YFinance") new
    /\ trace w' = evs ++ trace w
    /\ yf_calls evs = [].
Proof.
  rewrite search_web_is_fallback. unfold duckduckgo.
  destruct (ddgs_imported env).
  - cbv [try_catch bind ddgs_search next_tick emit modify lift ret raise log_tool].
    destruct (ddgs_text env (tick w) q k) as [msg|hits].
    + eexists [], _, [_], [_]. split; [reflexivity|]. split; [constructor|].
      repeat split. constructor; [discriminate | constructor].
    + destruct (mapM ddgs_item hits) as [rs|e] eqn:E.
      * eexists rs, _, [_], [_]. split; [reflexivity|].
        split; [eapply mapM_ddgs_titles, E|].
        repeat split. constructor; [discriminate | constructor].
      * eexists [], _, [_], [_]. split; [reflexivity|]. split; [constructor|].
        repeat split. constructor; [discriminate | constructor].
  - exists [], w, [], []. repeat split; try constructor. now rewrite app_nil_r.
Qed.

Lemma detect_ticker_result env company w :
  exists t w' pre evs,
    detect_ticker env company w = (Ok t, w')
    /\ company_memory w' = company_memory w
    /\ tool_calls w' = tool_calls w ++ pre
    /\ Forall (fun c => tool c <> "YFinance") pre
    /\ trace w' = evs ++ trace w
    /\ yf_calls evs = []
    /\ (forall k, t = Some k ->
          1 <= String.length k <= 5 /\ Text.all_upper k = true)
    /\ (forall k, Text.search_ticker company = Some k -> t = Some k /\ w' = w).
Proof.
  unfold detect_ticker.
  destruct (Text.search_ticker company) as [t|] eqn:S.
  - exists (Some t), w, [], []. split; [reflexivity|].
    split; [reflexivity|]. split; [now rewrite app_nil_r|].
    split; [constructor|]. split; [reflexivity|]. split; [reflexivity|].
    split.
    + intros k H. injection H as <-. eapply search_from_shape, S.
    + intros k H. injection H as <-. auto.
  - destruct (search_web_log env (company +++ " stock ticker symbol") 1 w)
      as (rs & w' & new & evs & E & T & Hm & Hl & Hn & Ht & Hy).
    rewrite (bind_ok _ _ _ _ _ E).
    destruct T as [|h rs (t & Hh) _].
    + exists None, w', new, evs. split; [reflexivity|].
      repeat (split; [assumption|]). split; intros k H; discriminate H.
    + unfold get_or. rewrite Hh.
      exists (Text.search_ticker (Text.upper t)), w', new, evs.
      split; [reflexivity|]. repeat (split; [assumption|]).
      split; intros k H; [|discriminate H].
      eapply search_from_shape, H.
Qed.

(** X11. [fetch_financials] never raises and leaves the Memory Store alone.
    It asks the market-data provider at most once, and then for a symbol of
    one to five capital letters A to Z.  What it returns is either the one-key
    error marker, and then the tool log gained no "YFinance" entry, or a
    snapshot with that symbol and no [error] key, and then the log gained
    exactly one "YFinance" entry, its last, with the symbol as input and
    "Success" as output.  A business summary in the snapshot has at most 500
    characters. *)
Theorem fetch_financials_result env company w :
  exists d w' new evs,
    fetch_financials env company w = (Ok d, w')
    /\ company_memory w' = company_memory w
    /\ tool_calls w' = tool_calls w ++ new
    /\ trace w' = evs ++ trace w
    /\ List.length (yf_calls evs) <= 1
    /\ Forall (fun k => 1 <= String.length k <= 5 /\ Text.all_upper k = true)
              (yf_calls evs)
    /\ (forall s, Dict.get "summary" d = Some (JStr s) -> String.length s <= 500)
    /\ ((exists msg,
           d = [("error", JStr msg)]
           /\ Forall (fun c => tool c <> "YFinance") new)
        \/ (exists ticker pre entry,
              Dict.get "symbol" d = Some (JStr ticker)
              /\ Dict.get "error" d = None
              /\ 1 <= String.length ticker <= 5
              /\ Text.all_upper ticker = true
              /\ yf_calls evs = [ticker]
              /\ new = pre ++ [entry]
              /\ Forall (fun c => tool c <> "YFinance") pre
              /\ tool entry = "YFinance"
              /\ input entry = ticker
              /\ output entry = "Success")).
Proof.
  unfold fetch_financials.
  destruct (detect_ticker_result env company w)
    as (t & w1 & pre & evs & E & Hm & Hl & Hn & Ht & Hy & Hk & _).
  rewrite (bind_ok _ _ _ _ _ E).
  destruct t as [ticker|].
  - destruct (Hk ticker eq_refl) as [Hlen Hup].
    destruct (yfinance_snapshot_result env ticker w1)
      as (d & w2 & E2 & Hm2 & Ht2 & Hcase & Hsum).
    assert (Hcalls : yf_calls (EvYf ticker :: evs) = [ticker]).
    { change (yf_calls (EvYf ticker :: evs)) with (ticker :: yf_calls evs).
      now rewrite Hy. }
    destruct Hcase as [(msg & -> & Hl2) | (Hsym & Herr & entry & Hl2 & Htool & Hin & Hout)].
    + exists [("error", JStr msg)], w2, pre, (EvYf ticker :: evs).
      split; [exact E2|]. split; [congruence|]. split; [congruence|].
      split; [rewrite Ht2, Ht; reflexivity|].
      split; [rewrite Hcalls; cbn; lia|].
      split; [rewrite Hcalls; constructor; [split; assumption | constructor]|].
      split; [exact Hsum|]. left. eauto.
    + exists d, w2, (pre ++ [entry]), (EvYf ticker :: evs).
      split; [exact E2|]. split; [congruence|].
      split; [rewrite Hl2, Hl, app_assoc; reflexivity|].
      split; [rewrite Ht2, Ht; reflexivity|].
      split; [rewrite Hcalls; cbn; lia|].
      split; [rewrite Hcalls; constructor; [split; assumption | constructor]|].
      split; [exact Hsum|]. right. exists ticker, pre, entry.
      split; [exact Hsym|]. split; [exact Herr|]. split; [exact Hlen|].
      split; [exact Hup|]. split; [exact Hcalls|]. split; [reflexivity|].
      split; [exact Hn|]. split; [exact Htool|]. split; [|exact Hout].
      rewrite Hin. apply take_all. lia.
  - exists [("error", JStr "Could not detect ticker.")], w1, pre, evs.
    split; [reflexivity|]. split; [exact Hm|]. split; [exact Hl|].
    split; [exact Ht|]. split; [rewrite Hy; cbn; lia|].
    split; [rewrite Hy; constructor|].
    split; [cbn; intros s H; discriminate H|]. left. eauto.
Qed.

(* ================================================================== *)
(** ** The research flow, step by step *)
(* ================================================================== *)


Lemma quiet_llm_calls w w' :
  quiet no_llm w w' -> llm_calls (trace w') = llm_calls (trace w).
Proof.
  intros (_ & _ & _ & _ & evs & T & F). rewrite T. unfold llm_calls.
  rewrite flat_map_app, (flat_map_silent _ no_llm); auto.
  intros []; simpl; auto; discriminate.
Qed.


Lemma notify_no_llm cb m w :
  exists w', notify cb m w = (Ok tt, w')
             /\ quiet no_llm w w' /\ tick w' = tick w.
Proof.
  destruct cb; cbn [notify].
  - eexists. split; [reflexivity|]. split; [|reflexivity].
    repeat split; auto. now exists [EvStatus m].
  - exists w. split; [reflexivity|]. split; [apply quiet_refl | reflexivity].
Qed.



(* ================================================================== *)
(** ** Follow-ups and comparisons *)
(* ================================================================== *)

(** The [text] of a plan that is well formed is text; without a plan the
    default, the empty text, is read. *)
Lemma stored_text_is_text company w :
  memory_ok (company_memory w) ->
  exists t,
    get_or "text" (JStr EmptyString) (get_or company [] (company_memory w)) = JStr t
    /\ match Dict.get company (company_memory w) with
       | Some plan => Dict.get "text" plan = Some (JStr t)
       | None => t = EmptyString
       end.
Proof.
  intros F. unfold get_or.
  change (@Dict.get (list (string * json)) company (company_memory w))
    with (@Dict.get (dict json) company (company_memory w)).
  destruct (Dict.get company (company_memory w)) as [plan|] eqn:G.
  - destruct (memory_ok_get _ _ _ F G) as (t & o & j & Ht & _).
    exists t. rewrite Ht. split; reflexivity.
  - exists EmptyString. split; reflexivity.
Qed.


(** X14. On an agent whose plans are well formed, as they are from its
    creation on, [answer_followup] never raises.  It asks the language model
    once, with room for 8192 tokens, about the first 5000 characters of the
    [text] stored for the company; for a company that is not in the Memory
    Store the context is empty, and the question is put all the same.  The
    Memory Store and the tool log stay as they were and no research flow
    runs. *)
Theorem answer_followup_context env company question w :
  memory_ok (company_memory w) ->
  exists t out w',
    answer_followup env company question w = (Ok out, w')
    /\ match Dict.get company (company_memory w) with
       | Some plan => Dict.get "text" plan = Some (JStr t)
       | None => t = EmptyString
       end
    /\ llm_calls (trace w')
       = (FollowupPrompt (Text.take 5000 t) question, 8192, out)
         :: llm_calls (trace w)
    /\ String.length (Text.take 5000 t) <= 5000
    /\ company_memory w' = company_memory w
    /\ tool_calls w' = tool_calls w
    /\ researches (trace w') = researches (trace w).
Proof.
  intros F. unfold answer_followup. rewrite (bind_ok _ _ w w w) by reflexivity.
  destruct (stored_text_is_text company w F) as (t & -> & Ht).
  destruct (safe_generate_text_run env (FollowupPrompt (Text.take 5000 t) question)
                                   8192 w) as (out & E).
  exists t, out. eexists. split; [exact E|]. split; [exact Ht|].
  split; [reflexivity|]. split; [apply take_length|].
  repeat split.
Qed.

(** Companies that are known when the loop starts keep their plans. *)
Lemma compare_loop_data env companies : forall dp w,
  exists dp' w',
    compare_loop env companies dp w = (Ok dp', w')
    /\ (forall c, Dict.mem c (company_memory w) = true ->
          Dict.get c (company_memory w') = Dict.get c (company_memory w))
    /\ (forall c, In c companies ->
          exists plan, Dict.get c (company_memory w') = Some plan
                       /\ Dict.get c dp' = Some (get_or "json" JNull plan))
    /\ (forall c, ~ In c companies -> Dict.get c dp' = Dict.get c dp)
    /\ ((forall c, In c companies -> Dict.mem c (company_memory w) = true) ->
        w' = w).
Proof.
  induction companies as [|c rest IH]; intros dp w.
  - exists dp, w. split; [reflexivity|]. repeat split; auto.
    intros c [].
  - cbn [compare_loop].
    rewrite (bind_ok _ _ w w w) by reflexivity.
    destruct (Dict.mem c (company_memory w)) eqn:Hm.
    + rewrite (bind_ok _ _ w tt w) by reflexivity.
      rewrite (bind_ok _ _ w w w) by reflexivity.
      pose proof Hm as Hg. unfold Dict.mem in Hg.
      destruct (Dict.get c (company_memory w)) as [plan|] eqn:G; [|discriminate].
      destruct (IH (Dict.set c (get_or "json" JNull plan) dp) w)
        as (dp' & w' & E & Keep & Data & Rest & Same).
      exists dp', w'. split; [exact E|]. split; [exact Keep|].
      split; [|split].
      * intros c0 I. destruct (in_dec string_dec c0 rest) as [Ir|Nr]; [auto|].
        destruct I as [<-|I]; [|contradiction].
        exists plan. split; [now rewrite Keep|].
        rewrite Rest by exact Nr. apply get_set_same.
      * intros c0 N. rewrite Rest by (intros I; apply N; now right).
        apply get_set_other. intros ->. apply N. now left.
      * intros K. apply Same. intros c0 I. apply K. now right.
    + destruct (perform_deep_research_run env c false w)
        as (report & out & tr & w1 & E1 & Mem & _).
      rewrite (bind_ok _ _ w tt w1)
        by (unfold bind; rewrite E1; reflexivity).
      rewrite (bind_ok _ _ w1 w1 w1) by reflexivity.
      rewrite Mem, get_set_same.
      destruct (IH (Dict.set c (get_or "json" JNull
                                       (fresh_plan report (stored_json out))) dp) w1)
        as (dp' & w' & E & Keep & Data & Rest & Same).
      assert (Hc : Dict.mem c (company_memory w1) = true)
        by (rewrite Mem; apply mem_set_same).
      exists dp', w'. split; [exact E|]. split; [|split; [|split]].
      * intros c0 K. assert (N : c <> c0) by (intros <-; congruence).
        rewrite Keep by (rewrite Mem, mem_set_other; auto).
        rewrite Mem. now apply get_set_other.
      * intros c0 I. destruct (in_dec string_dec c0 rest) as [Ir|Nr]; [auto|].
        destruct I as [<-|I]; [|contradiction].
        exists (fresh_plan report (stored_json out)).
        split; [rewrite Keep by exact Hc; rewrite Mem; apply get_set_same|].
        rewrite Rest by exact Nr. apply get_set_same.
      * intros c0 N. rewrite Rest by (intros I; apply N; now right).
        apply get_set_other. intros ->. apply N. now left.
      * intros K. specialize (K c (or_introl eq_refl)). congruence.
Qed.


(** X16. A comparison of companies that are all in the Memory Store changes
    neither the Memory Store nor the tool log, runs no research flow, and
    asks the language model once. *)
Theorem compare_known_companies env companies cb w :
  (forall c, In c companies -> Dict.mem c (company_memory w) = true) ->
  exists data_points out w',
    compare_companies env companies cb w = (Ok out, w')
    /\ company_memory w' = company_memory w
    /\ tool_calls w' = tool_calls w
    /\ researches (trace w') = researches (trace w)
    /\ llm_calls (trace w')
       = (ComparePrompt data_points, 8192, out) :: llm_calls (trace w).
Proof.
  intros K. unfold compare_companies.
  destruct (notify_no_llm cb (Comparing (Text.join ", " companies)) w)
    as (w1 & E1 & q1 & _).
  rewrite (bind_ok _ _ _ _ _ E1).
  assert (L1 : tool_calls w1 = tool_calls w
               /\ researches (trace w1) = researches (trace w)).
  { destruct cb; cbn [notify] in E1; injection E1 as <-; split; reflexivity. }
  destruct L1 as [L1 R1].
  pose proof (quiet_llm_calls _ _ q1) as C1.
  destruct q1 as (_ & _ & M1 & _).
  destruct (compare_loop_data env companies [] w1)
    as (dp & w2 & E2 & _ & _ & _ & Same).
  rewrite (bind_ok _ _ _ _ _ E2).
  rewrite Same in * by (intros c I; rewrite M1; auto).
  destruct (safe_generate_text_run env (ComparePrompt dp) 8192 w1) as (out & E3).
  exists dp, out. eexists. split; [exact E3|].
  cbn [company_memory tool_calls trace with_trace with_tick].
  split; [exact M1|]. split; [exact L1|]. split; [exact R1|].
  change (llm_calls (EvLlm (ComparePrompt dp) 8192 out :: trace w1))
    with ((ComparePrompt dp, 8192, out) :: llm_calls (trace w1)).
  now rewrite C1.
Qed.

(* ================================================================== *)
(** ** What [ask] does with the classifier's answer *)
(* ================================================================== *)

(** [ask], from the classifier's answer on. *)
Lemma ask_dispatch env user_text cb w d w1 :
  classify_intent env user_text (after_hearing user_text cb w) = (Ok (JObj d), w1) ->
  ask env user_text cb w
  = (let intent := get_or "intent" (JStr "research") d in
     let companies := get_or "companies" (JArr []) d in
     if eq_str intent "off_topic" then ret off_topic_reply
     else if eq_str intent "greeting" then ret greeting_reply
     else
       comparing <- (if eq_str intent "compare" then
                       match py_len companies with
                       | Some n => ret (2 <=? n)
                       | None => raise (TypeError "object has no len()")
                       end
                     else ret false) ;;
       if comparing then
         names <- lift (company_names companies) ;;
         compare_companies env names cb
       else
         company <- (if truthy companies then lift (first_item companies)
                     else ret (JStr user_text)) ;;
         w <- get_world ;;
         if eq_str intent "follow_up" && negb (Dict.is_empty (company_memory w)) then
           match Dict.last_key (company_memory w) with
           | Some company => answer_followup env company user_text
           | None => raise (TypeError "list index out of range")
           end
         else
           company <- lift (as_text company) ;;
           perform_deep_research env company cb) w1.
Proof.
  intros Hc. unfold ask.
  rewrite (bind_ok _ _ w tt
             (with_chat (chat_history w ++ [mkChat "user" user_text]) w))
    by reflexivity.
  rewrite (bind_ok _ _ _ tt (after_hearing user_text cb w))
    by (destruct cb; reflexivity).
  rewrite (bind_ok _ _ _ _ _ Hc).
  rewrite (bind_ok _ _ w1 (get_or "intent" (JStr "research") d) w1) by reflexivity.
  rewrite (bind_ok _ _ w1 (get_or "companies" (JArr []) d) w1) by reflexivity.
  reflexivity.
Qed.

Lemma classify_intent_world env user_text w :
  exists out,
    snd (classify_intent env user_text w)
    = with_trace (EvLlm (IntentPrompt user_text) 200 out :: trace w)
                 (with_tick (S (tick w)) w).
Proof.
  destruct (safe_generate_text_run env (IntentPrompt user_text) 200 w) as (out & E).
  exists out. unfold classify_intent, try_catch. rewrite (bind_ok _ _ _ _ _ E).
  destruct (Text.find _ _); [destruct (loads _)|]; reflexivity.
Qed.

(** X17. When the classifier's answer is a dictionary whose [intent] is
    [off_topic] or [greeting], [ask] returns the fixed reply for it,
    whatever the [companies] are.  Beyond the utterance recorded in the chat
    history and the one call to the language model that classified it,
    nothing happened: the Memory Store and the tool log are as before, and
    no search, market-data call or research flow ran. *)
Theorem ask_small_talk env user_text cb w d w1 intent :
  classify_intent env user_text (after_hearing user_text cb w) = (Ok (JObj d), w1) ->
  Dict.get "intent" d = Some (JStr intent) ->
  intent = "off_topic" \/ intent = "greeting" ->
  exists out,
    ask env user_text cb w
    = (Ok (if String.eqb intent "off_topic" then off_topic_reply else greeting_reply),
       w1)
    /\ company_memory w1 = company_memory w
    /\ tool_calls w1 = tool_calls w
    /\ chat_history w1 = chat_history w ++ [mkChat "user" user_text]
    /\ llm_calls (trace w1) = (IntentPrompt user_text, 200, out) :: llm_calls (trace w)
    /\ researches (trace w1) = researches (trace w)
    /\ ddgs_calls (trace w1) = ddgs_calls (trace w)
    /\ yf_calls (trace w1) = yf_calls (trace w).
Proof.
  intros Hc Hi Hk.
  destruct (classify_intent_world env user_text (after_hearing user_text cb w))
    as (out & W).
  rewrite Hc in W. cbn [snd] in W.
  exists out. split.
  - rewrite (ask_dispatch _ _ _ _ _ _ Hc). unfold get_or. rewrite Hi.
    destruct Hk as [-> | ->]; reflexivity.
  - rewrite W. destruct cb; repeat split.
Qed.

Lemma company_names_text names : company_names (JArr (map JStr names)) = Ok names.
Proof.
  unfold company_names. cbn [iterate].
  induction names as [|c r IH]; cbn [map mapM as_text]; [reflexivity|].
  now rewrite IH.
Qed.

(** X18. When the classifier's answer is a dictionary whose [intent] is
    [compare] and whose [companies] is a list of two names or more, [ask]
    does what [compare_companies] does for these names, from the agent as
    the classification left it. *)
Theorem ask_compares env user_text cb w d w1 names :
  classify_intent env user_text (after_hearing user_text cb w) = (Ok (JObj d), w1) ->
  Dict.get "intent" d = Some (JStr "compare") ->
  Dict.get "companies" d = Some (JArr (map JStr names)) ->
  2 <= List.length names ->
  ask env user_text cb w = compare_companies env names cb w1.
Proof.
  intros Hc Hi Hl Hn.
  rewrite (ask_dispatch _ _ _ _ _ _ Hc). unfold get_or. rewrite Hi, Hl.
  cbv zeta.
  change (eq_str (JStr "compare") "off_topic") with false.
  change (eq_str (JStr "compare") "greeting") with false.
  change (eq_str (JStr "compare") "compare") with true.
  cbv iota. cbn [py_len]. rewrite length_map.
  apply Nat.leb_le in Hn.
  rewrite (bind_ok _ _ w1 true w1) by (unfold ret; now rewrite Hn).
  cbv iota.
  rewrite (bind_ok _ _ w1 names w1)
    by (unfold lift; now rewrite company_names_text).
  reflexivity.
Qed.

(** X19. Research is what [ask] falls back on.  When the classifier's
    answer is a dictionary whose [companies], if any, is a list of names,
    and whose [intent], if any, is neither [off_topic] nor [greeting], is
    [compare] only with fewer than two names, and is [follow_up] only while
    the Memory Store is empty, then [ask] does what [perform_deep_research]
    does, for the first name or, without one, for the utterance as a
    whole. *)
Theorem ask_researches env user_text cb w d w1 names :
  classify_intent env user_text (after_hearing user_text cb w) = (Ok (JObj d), w1) ->
  let intent := get_or "intent" (JStr "research") d in
  get_or "companies" (JArr []) d = JArr (map JStr names) ->
  eq_str intent "off_topic" = false ->
  eq_str intent "greeting" = false ->
  (eq_str intent "compare" = true -> List.length names < 2) ->
  (eq_str intent "follow_up" = true -> company_memory w = []) ->
  ask env user_text cb w
  = perform_deep_research env (match names with c :: _ => c | [] => user_text end)
                          cb w1.
Proof.
  intros Hc intent Hl H1 H2 H3 H4.
  pose proof (classify_intent_quiet env user_text (after_hearing user_text cb w)) as q.
  rewrite Hc in q. cbn [snd] in q.
  destruct (after_hearing_quiet user_text cb w) as (M0 & _).
  assert (Hmem : company_memory w1 = company_memory w).
  { destruct q as (_ & _ & -> & _). exact M0. }
  rewrite (ask_dispatch _ _ _ _ _ _ Hc). fold intent. rewrite Hl. cbv zeta.
  rewrite H1, H2.
  assert (C : (if eq_str intent "compare"
               then match py_len (JArr (map JStr names)) with
                    | Some n => ret (2 <=? n)
                    | None => raise (TypeError "object has no len()")
                    end
               else ret false) w1 = (Ok false, w1)).
  { destruct (eq_str intent "compare"); [|reflexivity].
    cbn [py_len]. rewrite length_map. unfold ret.
    specialize (H3 eq_refl). apply Nat.leb_gt in H3. now rewrite H3. }
  rewrite (bind_ok _ _ _ _ _ C). cbv iota.
  assert (F : eq_str intent "follow_up"
              && negb (Dict.is_empty (company_memory w1)) = false).
  { destruct (eq_str intent "follow_up"); [|reflexivity].
    rewrite Hmem, (H4 eq_refl). reflexivity. }
  destruct names as [|c rest]; cbn [map truthy first_item lift].
  - rewrite (bind_ok _ _ w1 (JStr user_text) w1) by reflexivity.
    rewrite (bind_ok _ _ w1 w1 w1) by reflexivity.
    rewrite F.
    rewrite (bind_ok _ _ w1 user_text w1) by reflexivity.
    reflexivity.
  - rewrite (bind_ok _ _ w1 (JStr c) w1) by reflexivity.
    rewrite (bind_ok _ _ w1 w1 w1) by reflexivity.
    rewrite F.
    rewrite (bind_ok _ _ w1 c w1) by reflexivity.
    reflexivity.
Qed.


(* ================================================================== *)
(** ** The editor, on sections that are there and on plans that take none *)
(* ================================================================== *)

Lemma get_set_other_key {V} (k k' : string) (v : V) d :
  k' <> k -> Dict.get k' (Dict.set k v d) = Dict.get k' d.
Proof. intros N. apply get_set_other. congruence. Qed.

(** X21. Editing a section that the stored object has replaces its value
    where it stands: the object keeps its keys and their order, the section
    reads back as the new value and every other section as before.  The
    language model is asked once for the rewrite, over the object as edited,
    and its answer becomes the [text] of the plan; the [original_text], the
    order of the companies and the tool log stay as they were. *)
Theorem update_known_section_in_place env company section new_val w plan fields :
  Dict.get company (company_memory w) = Some plan ->
  Dict.get "json" plan = Some (JObj fields) ->
  Dict.mem section fields = true ->
  exists new_text fields' plan' w',
    update_company_section env company section new_val w = (Ok success_reply, w')
    /\ Dict.get company (company_memory w') = Some plan'
    /\ Dict.get "json" plan' = Some (JObj fields')
    /\ Dict.keys fields' = Dict.keys fields
    /\ Dict.get section fields' = Some new_val
    /\ (forall s, s <> section -> Dict.get s fields' = Dict.get s fields)
    /\ Dict.get "text" plan' = Some (JStr new_text)
    /\ Dict.get "original_text" plan' = Dict.get "original_text" plan
    /\ llm_calls (trace w')
       = (RewritePrompt section (JObj fields'), 8000, new_text) :: llm_calls (trace w)
    /\ Dict.keys (company_memory w') = Dict.keys (company_memory w)
    /\ tool_calls w' = tool_calls w.
Proof.
  intros Hc Hj Hm.
  destruct (update_company_section_world env company section new_val w plan
              (JObj fields) (JObj (Dict.set section new_val fields)) Hc Hj eq_refl)
    as (new_text & E).
  exists new_text, (Dict.set section new_val fields). eexists. eexists.
  split; [exact E|].
  cbn [company_memory with_memory with_trace with_tick tool_calls trace].
  split; [apply get_set_same|].
  split; [rewrite get_set_other_key by discriminate; apply get_set_same|].
  split; [now apply keys_set_present|].
  split; [apply get_set_same|].
  split; [intros s N; now apply get_set_other_key|].
  split; [apply get_set_same|].
  split; [now rewrite !get_set_other_key by discriminate|].
  split; [reflexivity|].
  split; [|reflexivity].
  assert (K : Dict.mem company (company_memory w) = true)
    by (unfold Dict.mem; now rewrite Hc).
  rewrite keys_set_present; [now apply keys_set_present|].
  apply mem_set_same.
Qed.

(** X22. A plan whose [json] is not an object takes no edit: the call
    raises [TypeError] before anything is written or asked, and the agent is
    left exactly as it was. *)
Theorem update_needs_an_object env company section new_val w plan old :
  Dict.get company (company_memory w) = Some plan ->
  Dict.get "json" plan = Some old ->
  (forall fields, old <> JObj fields) ->
  exists msg,
    update_company_section env company section new_val w = (Raise (TypeError msg), w).
Proof.
  intros Hc Hj Hn. unfold update_company_section.
  rewrite (bind_ok _ _ w w w) by reflexivity. rewrite Hc.
  destruct plan as [|kv plan']; [discriminate|].
  rewrite Hj. rewrite (bind_ok _ _ w old w) by reflexivity.
  destruct old; try (eexists; reflexivity).
  exfalso. eapply Hn. reflexivity.
Qed.

(* ================================================================== *)
(** ** The editor tab *)
(* ================================================================== *)



(* ================================================================== *)
(** ** Names that are tickers *)
(* ================================================================== *)

Lemma upper_is_word c : Text.is_upper_AZ c = true -> Text.is_word c = true.
Proof.
  intros H. unfold Text.is_word. rewrite H.
  destruct (Text.is_digit c); reflexivity.
Qed.

Lemma drop_all n s : String.length s <= n -> Text.drop n s = EmptyString.
Proof.
  revert n. induction s as [|c r IH]; intros [|n]; cbn [Text.drop String.length];
    intros L; try reflexivity; try lia.
  apply IH. lia.
Qed.

Lemma last_char_upper s :
  Text.all_upper s = true -> s <> EmptyString ->
  exists c, Text.last_char s = Some c /\ Text.is_upper_AZ c = true.
Proof.
  unfold Text.last_char.
  induction s as [|a r IH]; intros U N; [congruence|].
  cbn [Text.all_upper] in U. apply andb_prop in U as [Ua Ur].
  destruct r as [|b r'].
  - exists a. split; [reflexivity | exact Ua].
  - destruct (IH Ur) as (c & G & Uc); [discriminate|].
    exists c. split; [|exact Uc].
    cbn [String.length Nat.sub] in *. rewrite Nat.sub_0_r in *.
    exact G.
Qed.

Lemma greedy_letters_whole k s :
  Text.all_upper s = true -> 1 <= String.length s <= k ->
  Text.greedy_letters k s = Some s.
Proof.
  intros U. induction k as [|k IH]; intros L; [lia|].
  cbn [Text.greedy_letters]. unfold Text.letters_then_boundary.
  destruct (Nat.eq_dec (String.length s) (S k)) as [E|N].
  - rewrite take_all, drop_all by lia.
    rewrite (proj2 (Nat.eqb_eq _ _) E), U.
    destruct (last_char_upper s U) as (c & -> & Uc).
    { intros ->. cbn in L. lia. }
    unfold Text.boundary. now rewrite (upper_is_word c Uc).
  - rewrite (take_all (S k) s) by lia.
    rewrite (proj2 (Nat.eqb_neq _ _) N). cbn [andb].
    apply IH. lia.
Qed.

Lemma capital_word_is_ticker s :
  Text.all_upper s = true -> 1 <= String.length s <= 5 ->
  Text.search_ticker s = Some s.
Proof.
  intros U L. unfold Text.search_ticker.
  destruct s as [|c r]; [cbn in L; lia|].
  cbn [Text.search_from]. unfold Text.match_here.
  assert (B : Text.boundary None (String c r) = true).
  { pose proof U as U'. cbn [Text.all_upper] in U'.
    apply andb_prop in U' as [Uc _].
    unfold Text.boundary. now rewrite (upper_is_word c Uc). }
  rewrite B. now rewrite greedy_letters_whole.
Qed.

(** X24. A ticker that stands in the company text is used as it is: the
    market-data provider is asked for the leftmost word of one to five
    capital letters A to Z that the text holds, and no search is made.  A
    company text that is itself such a word is its own ticker. *)
Theorem ticker_in_the_name env company w :
  (forall ticker,
     Text.search_ticker company = Some ticker ->
     exists d w',
       fetch_financials env company w = (Ok d, w')
       /\ trace w' = EvYf ticker :: trace w)
  /\ (Text.all_upper company = true -> 1 <= String.length company <= 5 ->
      Text.search_ticker company = Some company).
Proof.
  split.
  - intros ticker S. unfold fetch_financials, detect_ticker. rewrite S.
    rewrite (bind_ok _ _ w (Some ticker) w) by reflexivity.
    destruct (yfinance_snapshot_result env ticker w) as (d & w' & E & _ & T & _).
    eauto.
  - apply capital_word_is_ticker.
Qed.

(* ================================================================== *)
(** ** The properties on the scenarios *)
(* ================================================================== *)

Lemma plans_are_well_formed_witness :
  init (Some "key") None None = Some Scenario.fresh
  /\ let w := run_calls Scenario.env
                [CallResearch "Tesla" false;
                 CallUpdate "Tesla" "overview" (JStr "trucks");
                 CallAsk "And Ford?" true]
                Scenario.fresh in
     memory_ok (company_memory w)
     /\ google_api_key w = None
     /\ cse_id w = None.
Proof.
  split; [reflexivity|].
  apply (plans_are_well_formed Scenario.env (Some "key") None None).
  reflexivity.
Defined.


Lemma answer_followup_context_witness :
  memory_ok (company_memory Scenario.with_tesla)
  /\ exists out w',
       answer_followup Scenario.env "Tesla" "And its margins?" Scenario.with_tesla
       = (Ok out, w')
       /\ llm_calls (trace w')
          = [(FollowupPrompt "edited" "And its margins?", 8192, out)].
Proof.
  assert (F : memory_ok (company_memory Scenario.with_tesla)).
  { constructor; [|constructor].
    exists "edited", "first", (JObj [("overview", JStr "cars")]).
    repeat split. }
  split; [exact F|].
  destruct (answer_followup_context Scenario.env "Tesla" "And its margins?"
              Scenario.with_tesla F)
    as (t & out & w' & E & Ht & L & _).
  cbn in Ht. injection Ht as <-.
  exists out, w'. split; [exact E | exact L].
Defined.

Lemma compare_known_companies_witness :
  exists data_points out w',
    compare_companies Scenario.env ["Ford"; "Tesla"] true Scenario.with_ford_tesla
    = (Ok out, w')
    /\ company_memory w' = company_memory Scenario.with_ford_tesla
    /\ tool_calls w' = tool_calls Scenario.with_ford_tesla
    /\ researches (trace w') = researches (trace Scenario.with_ford_tesla)
    /\ llm_calls (trace w')
       = (ComparePrompt data_points, 8192, out)
         :: llm_calls (trace Scenario.with_ford_tesla).
Proof.
  apply (compare_known_companies Scenario.env ["Ford"; "Tesla"] true
           Scenario.with_ford_tesla).
  intros c [<-|[<-|[]]]; reflexivity.
Defined.

Lemma ask_small_talk_witness :
  fst (ask Cases.env_greeting "Hello Tesla" true Scenario.with_tesla)
  = Ok greeting_reply
  /\ company_memory (snd (ask Cases.env_greeting "Hello Tesla" true
                              Scenario.with_tesla))
     = company_memory Scenario.with_tesla.
Proof.
  destruct (ask_small_talk Cases.env_greeting "Hello Tesla" true Scenario.with_tesla
              [("intent", JStr "greeting"); ("companies", JArr [JStr "Tesla"])]
              (snd (classify_intent Cases.env_greeting "Hello Tesla"
                      (after_hearing "Hello Tesla" true Scenario.with_tesla)))
              "greeting")
    as (out & E & M & _).
  - vm_compute. reflexivity.
  - reflexivity.
  - right. reflexivity.
  - rewrite E. split; [reflexivity | exact M].
Defined.

Lemma ask_compares_witness :
  ask Cases.env_compare "Compare Ford and Tesla" false Scenario.fresh
  = compare_companies Cases.env_compare ["Ford"; "Tesla"] false
      (snd (classify_intent Cases.env_compare "Compare Ford and Tesla"
              (after_hearing "Compare Ford and Tesla" false Scenario.fresh))).
Proof.
  apply (ask_compares Cases.env_compare "Compare Ford and Tesla" false Scenario.fresh
           [("intent", JStr "compare");
            ("companies", JArr [JStr "Ford"; JStr "Tesla"])]).
  - vm_compute. reflexivity.
  - reflexivity.
  - reflexivity.
  - cbn. lia.
Defined.

Lemma ask_researches_witness :
  ask Scenario.env "Rivian" false Scenario.fresh
  = perform_deep_research Scenario.env "Rivian" false
      (snd (classify_intent Scenario.env "Rivian"
              (after_hearing "Rivian" false Scenario.fresh))).
Proof.
  apply (ask_researches Scenario.env "Rivian" false Scenario.fresh [] _ []).
  - vm_compute. reflexivity.
  - reflexivity.
  - reflexivity.
  - reflexivity.
  - intros H. discriminate H.
  - intros H. discriminate H.
Defined.


Lemma update_known_section_in_place_witness :
  exists w',
    update_company_section Scenario.env "Tesla" "overview" (JStr "trucks")
                           Scenario.with_tesla
    = (Ok success_reply, w')
    /\ Dict.keys (company_memory w') = ["Tesla"]
    /\ tool_calls w' = [].
Proof.
  destruct (update_known_section_in_place Scenario.env "Tesla" "overview"
              (JStr "trucks") Scenario.with_tesla Scenario.tesla_plan
              [("overview", JStr "cars")])
    as (new_text & fields' & plan' & w' & E & _ & _ & _ & _ & _ & _ & _ & _ & K & L).
  - reflexivity.
  - reflexivity.
  - reflexivity.
  - exists w'. split; [exact E|]. split; [exact K | exact L].
Defined.

Lemma update_needs_an_object_witness :
  Dict.get "Acme" (company_memory Cases.with_list)
  = Some (fresh_plan "# Executive Summary 5" (JArr [JNum "1"; JNum "2"]))
  /\ exists msg,
       update_company_section Cases.env_list "Acme" "overview" (JStr "x")
                              Cases.with_list
       = (Raise (TypeError msg), Cases.with_list).
Proof.
  assert (G : Dict.get "Acme" (company_memory Cases.with_list)
              = Some (fresh_plan "# Executive Summary 5"
                                 (JArr [JNum "1"; JNum "2"])))
    by (vm_compute; reflexivity).
  split; [exact G|].
  apply (update_needs_an_object Cases.env_list "Acme" "overview" (JStr "x")
           Cases.with_list _ (JArr [JNum "1"; JNum "2"]) G).
  - reflexivity.
  - intros fields. discriminate.
Defined.


Lemma ticker_in_the_name_witness :
  Text.search_ticker "IBM Corp" = Some "IBM"
  /\ (exists d w',
        fetch_financials Scenario.env "IBM Corp" Scenario.fresh = (Ok d, w')
        /\ trace w' = [EvYf "IBM"])
  /\ Text.search_ticker "IBM" = Some "IBM".
Proof.
  split; [reflexivity|].
  destruct (ticker_in_the_name Scenario.env "IBM Corp" Scenario.fresh) as [H _].
  destruct (ticker_in_the_name Scenario.env "IBM" Scenario.fresh) as [_ H'].
  split; [apply H; reflexivity | apply H'; [reflexivity | cbn; lia]].
Defined.

Lemma session_history_in_step_witness :
  let st := App.chat_turns Scenario.env ["Rivian"; "And Ford?"] ([], Scenario.fresh) in
  filter App.from_user (fst st) = chat_history (snd st).
Proof.
  apply (session_history_in_step Scenario.env ["Rivian"; "And Ford?"]
           ([], Scenario.fresh)).
  reflexivity.
Defined.
